(** * DDRCardDraw: the catalog validator and the abbreviation lookup

    A shallow embedding of [scripts/validate.mjs] (the consistency checks of
    [validateContents] and the loop that drives them) and of [getDiffAbbr]
    from [src/game-data-utils.tsx], with the properties the specification
    states about them. *)

From stdpp Require Import gmap strings list.
From Stdlib Require Import ZArith Lia.

Local Open Scope Z_scope.

(** ** JavaScript values and completions *)

(** The double quote character, which two of the messages contain. *)
Definition dquote : string :=
  String (Ascii.Ascii false true false false false true false false) EmptyString.

(** Modelled from the spec: a translation dictionary, of display strings
    and nested dictionaries such as [$abbr]. It is the type [I18NDict] as
    [src/game-data-utils.tsx] uses it: the casts of [getDiffAbbr] narrow the
    value under a key from a string or a dictionary, so that no key, [$abbr]
    included, is known to be there or to hold a dictionary. *)
#[warnings="-register-all"]
Inductive I18NValue : Type :=
| IStr (s : string)
| IDict (d : gmap string I18NValue).

Abbreviation I18NDict := (gmap string I18NValue).

(** The values a property read produces in this program. [VNative] stands
    for a built-in function or prototype object, which is truthy. *)
Inductive JSValue : Type :=
| VUndefined
| VString (s : string)
| VNumber (n : Z)
| VObject (d : I18NDict)
| VNative.

(** The exceptions of this program: the TypeError of a property read on
    undefined, and the error of a file-system call that fails (ENOENT, EACCES
    and the like). *)
Inductive JSError : Type :=
| TypeError
| SystemError.

(** The outcome of evaluating an expression or running a function. *)
Inductive Completion (A : Type) : Type :=
| Normal (a : A)
| Throw (e : JSError).
Arguments Normal {A} a.
Arguments Throw {A} e.

Definition bindC {A B} (c : Completion A) (f : A → Completion B) : Completion B :=
  match c with
  | Normal a => f a
  | Throw e => Throw e
  end.

(** ToBoolean. *)
Definition truthy (v : JSValue) : bool :=
  match v with
  | VUndefined => false
  | VString s => negb (String.eqb s "")
  | VNumber n => negb (n =? 0)
  | VObject _ => true
  | VNative => true
  end.

(** Truthiness of an optional number and of an optional boolean field:
    a field that is absent reads as undefined. *)
Definition truthy_number (o : option Z) : bool :=
  match o with
  | Some n => truthy (VNumber n)
  | None => false
  end.

Definition truthy_bool (o : option bool) : bool :=
  match o with
  | Some b => b
  | None => false
  end.

(** [a > b] where [a] may be undefined: undefined converts to NaN, and every
    comparison with NaN is false. *)
Definition js_gt (a : option Z) (b : Z) : bool :=
  match a with
  | Some x => b <? x
  | None => false
  end.

(** The property names every plain object inherits from [Object.prototype];
    each of them reads as a function or an object. *)
Definition Object_prototype : list string :=
  [ "constructor"; "hasOwnProperty"; "isPrototypeOf"; "propertyIsEnumerable";
    "toLocaleString"; "toString"; "valueOf"; "__proto__";
    "__defineGetter__"; "__defineSetter__"; "__lookupGetter__";
    "__lookupSetter__" ].

Definition of_I18NValue (v : I18NValue) : JSValue :=
  match v with
  | IStr s => VString s
  | IDict d => VObject d
  end.

(** [obj[key]] for an object that came from JSON: its own property, or else
    what the prototype chain gives. *)
Definition get_object (d : I18NDict) (k : string) : JSValue :=
  match d !! k with
  | Some v => of_I18NValue v
  | None => if bool_decide (k ∈ Object_prototype) then VNative else VUndefined
  end.

(** ** The catalog document *)

(** Modelled from the spec: the shape of a catalog document (section 3 of
    the specification), [songs.schema.json] and the types generated from it
    in [src/models/SongData.ts] not being among the sources. The records
    hold the fields [validateContents] reads, and [defaults.flags], which it
    leaves alone. Levels, bounds and draw groups are integers, compared as
    such. [defaults.style], [song.jacket], [chart.lvl], [chart.drawGroup]
    and [meta.usesDrawGroups] may be absent. *)
Module Difficulty.
Record t : Type := { key : string }.
End Difficulty.

Module Meta.
Record t : Type := {
  styles : list string;
  difficulties : list Difficulty.t;
  flags : list string;
  lvlMax : Z;
  usesDrawGroups : option bool
}.
End Meta.

Module Defaults.
Record t : Type := {
  style : option string;
  difficulties : list string;
  flags : list string;
  lowerLvlBound : Z;
  upperLvlBound : Z
}.
End Defaults.

Module Chart.
Record t : Type := {
  style : string;
  diffClass : string;
  lvl : option Z;
  drawGroup : option Z
}.
End Chart.

Module Song.
Record t : Type := {
  name : string;
  jacket : option string;
  charts : list Chart.t
}.
End Song.

(** Modelled from the spec: [i18n], with the required English dictionary
    and the dictionaries of the other locales by their tag, so that
    [i18n.ja] is [locales !! "ja"]. *)
Module I18N.
Record t : Type := {
  en : I18NDict;
  locales : gmap string I18NDict
}.
End I18N.

(** Modelled from the spec: the document, with its four parts. *)
Record GameData : Type := {
  meta : Meta.t;
  defaults : Defaults.t;
  i18n : I18N.t;
  songs : list Song.t
}.

(** ** The body of [validateContents]: pushing onto [errors], possibly throwing *)

Definition Check (A : Type) : Type := list string → Completion (A * list string).

#[global] Instance Check_ret : MRet Check :=
  fun A a errors => Normal (a, errors).

#[global] Instance Check_bind : MBind Check :=
  fun A B f c errors =>
    match c errors with
    | Normal (a, errors') => f a errors'
    | Throw e => Throw e
    end.

Definition lift {A} (c : Completion A) : Check A :=
  fun errors =>
    match c with
    | Normal a => Normal (a, errors)
    | Throw e => Throw e
    end.

(** [errors.push(msg)] *)
Definition push (msg : string) : Check unit :=
  fun errors => Normal (tt, errors ++ [msg]).

(** [if (b) { c }] *)
Definition when {M : Type → Type} `{!MRet M} (b : bool) (c : M unit) : M unit :=
  if b then c else mret tt.

(** [for (const x of xs) { body }] and [xs.forEach(body)] *)
Fixpoint for_of {M : Type → Type} `{!MRet M, !MBind M} {A}
    (xs : list A) (body : A → M unit) : M unit :=
  match xs with
  | [] => mret tt
  | x :: xs' => body x ;; for_of xs' body
  end.

Definition has (s : gset string) (x : string) : bool := bool_decide (x ∈ s).

(** [a && b], of which the conditions only use the truth value. *)
Definition js_and (a b : Completion JSValue) : Completion JSValue :=
  bindC a (fun x => if truthy x then b else Normal x).

Definition js_not (a : Completion JSValue) : Completion bool :=
  bindC a (fun x => Normal (negb (truthy x))).

(** ** The script's state: [hasError], the console and the files on disk

    The disk maps the paths that exist to what is stored there. *)

Inductive Line : Type :=
| Log (s : string)
| Error (s : string).

Record ScriptState : Type := {
  hasError : bool;
  console : list Line;
  files : gmap string string
}.

(** How a step of the script ends: normally, by an uncaught exception, or by
    [process.exit]. *)
Inductive Outcome (A : Type) : Type :=
| Done (a : A)
| Uncaught (e : JSError)
| Exited (code : Z).
Arguments Done {A} a.
Arguments Uncaught {A} e.
Arguments Exited {A} code.

Definition Script (A : Type) : Type := ScriptState → Outcome A * ScriptState.

#[global] Instance Script_ret : MRet Script :=
  fun A a st => (Done a, st).

#[global] Instance Script_bind : MBind Script :=
  fun A B f c st =>
    match c st with
    | (Done a, st') => f a st'
    | (Uncaught e, st') => (Uncaught e, st')
    | (Exited code, st') => (Exited code, st')
    end.

Definition console_log (s : string) : Script unit :=
  fun st => (Done tt, {| hasError := st.(hasError);
                         console := st.(console) ++ [Log s];
                         files := st.(files) |}).

Definition console_error (s : string) : Script unit :=
  fun st => (Done tt, {| hasError := st.(hasError);
                         console := st.(console) ++ [Error s];
                         files := st.(files) |}).

Definition set_hasError (b : bool) : Script unit :=
  fun st => (Done tt, {| hasError := b;
                         console := st.(console);
                         files := st.(files) |}).

Definition read_hasError : Script bool :=
  fun st => (Done st.(hasError), st).

Definition read_files : Script (gmap string string) :=
  fun st => (Done st.(files), st).

(** [fs.writeFileSync]. The write stores the file when the directory of the
    path exists and the path can be written, which [writable] tells; else
    it throws and leaves the disk as it is. *)
Definition writeFileSync (writable : string → bool) (path data : string)
    : Script unit :=
  fun st =>
    if writable path then
      (Done tt, {| hasError := st.(hasError);
                   console := st.(console);
                   files := <[path := data]> st.(files) |})
    else (Uncaught SystemError, st).

Definition process_exit (code : Z) : Script unit :=
  fun st => (Exited code, st).

(** Calling a function that may throw; nothing in the script catches. *)
Definition call {A} (c : Completion A) : Script A :=
  fun st =>
    match c with
    | Normal a => (Done a, st)
    | Throw e => (Uncaught e, st)
    end.

(** [fs.existsSync] on a given disk. *)
Definition existsSync_on (disk : gmap string string) (path : string) : bool :=
  bool_decide (is_Some (disk !! path)).

Definition newline : string :=
  String (Ascii.Ascii false true false true false false false false) EmptyString.

Definition schemaLocation : string := "src/models/SongData.ts".

Definition bannerComment : string :=
  newline +:+ "/**" +:+ newline
  +:+ " * This file was automatically generated by json-schema-to-typescript. DO NOT MODIFY IT BY HAND."
  +:+ newline
  +:+ " * Instead, modify `songs.schema.json` and run `yarn validate` to regenerate the SongData types"
  +:+ newline
  +:+ " * here as well as checking that the data files match."
  +:+ newline +:+ " */".

(** The result of the schema validator: [result.valid] and [result.errors],
    the latter already as [error.toString()] gives them. *)
Record ValidatorResult : Type := {
  valid : bool;
  errors : list string
}.

(** ** Sample documents and a sample runtime *)

Module Sample.

Definition catalog_meta (uses : option bool) : Meta.t :=
  {| Meta.styles := ["single"%string];
     Meta.difficulties := [ {| Difficulty.key := "basic" |} ];
     Meta.flags := ["shock"%string];
     Meta.lvlMax := 19;
     Meta.usesDrawGroups := uses |}.

Definition catalog_defaults : Defaults.t :=
  {| Defaults.style := Some "single"%string;
     Defaults.difficulties := ["basic"%string];
     Defaults.flags := ["plus"%string];
     Defaults.lowerLvlBound := 1;
     Defaults.upperLvlBound := 19 |}.

Definition english : I18NDict :=
  {[ "single"%string := IStr "Single";
     "basic"%string := IStr "Basic";
     "shock"%string := IStr "Shock Arrows";
     "$abbr"%string := IDict {[ "basic"%string := IStr "B" ]} ]}.

Definition japanese : I18NDict :=
  {[ "single"%string := IStr "SP";
     "basic"%string := IStr "BSP";
     "shock"%string := IStr "SHOCK";
     "$abbr"%string := IDict {[ "basic"%string := IStr "b" ]} ]}.

(** English without the abbreviations. *)
Definition english_plain : I18NDict :=
  {[ "single"%string := IStr "Single";
     "basic"%string := IStr "Basic";
     "shock"%string := IStr "Shock Arrows" ]}.

Definition chart (drawGroup : option Z) : Chart.t :=
  {| Chart.style := "single";
     Chart.diffClass := "basic";
     Chart.lvl := Some 5;
     Chart.drawGroup := drawGroup |}.

Definition song (drawGroup : option Z) : Song.t :=
  {| Song.name := "Song A";
     Song.jacket := Some "a.png"%string;
     Song.charts := [chart drawGroup] |}.

Definition catalog (en : I18NDict) (locales : gmap string I18NDict)
    (drawGroup : option Z) : GameData :=
  {| meta := catalog_meta (Some true);
     defaults := catalog_defaults;
     i18n := {| I18N.en := en; I18N.locales := locales |};
     songs := [song drawGroup] |}.

(** Every invariant holds and the draw group is 12. *)
Definition good : GameData :=
  catalog english {[ "ja"%string := japanese ]} (Some 12).

(** As [good], the chart having the draw group 0. *)
Definition zero_group : GameData :=
  catalog english {[ "ja"%string := japanese ]} (Some 0).

(** As [good], the chart having no draw group. *)
Definition no_group : GameData :=
  catalog english {[ "ja"%string := japanese ]} None.

(** A Korean locale without any translation, and no Japanese one. *)
Definition korean : GameData :=
  catalog english {[ "ko"%string := (∅ : I18NDict) ]} (Some 12).

(** A Japanese locale that has the abbreviation dictionary, empty, and
    nothing else. *)
Definition untranslated : GameData :=
  catalog english {[ "ja"%string := ({[ "$abbr"%string := IDict ∅ ]} : I18NDict) ]}
    (Some 12).

(** A Japanese locale, and no [$abbr] in the English one. *)
Definition no_abbr : GameData :=
  catalog english_plain {[ "ja"%string := japanese ]} (Some 12).

(** A document that fails most checks. *)
Definition messy : GameData :=
  {| meta := {| Meta.styles := ["single"%string];
                Meta.difficulties := [ {| Difficulty.key := "basic" |} ];
                Meta.flags := [];
                Meta.lvlMax := 0;
                Meta.usesDrawGroups := None |};
     defaults := {| Defaults.style := Some "double"%string;
                    Defaults.difficulties := ["expert"%string];
                    Defaults.flags := [];
                    Defaults.lowerLvlBound := 5;
                    Defaults.upperLvlBound := 3 |};
     i18n := {| I18N.en := english;
                I18N.locales := {[ "ja"%string :=
                  ({[ "$abbr"%string := IDict ∅ ]} : I18NDict) ]} |};
     songs := [ {| Song.name := "Song B";
                   Song.jacket := Some "missing.png"%string;
                   Song.charts := [ {| Chart.style := "double";
                                       Chart.diffClass := "expert";
                                       Chart.lvl := Some 15;
                                       Chart.drawGroup := None |} ] |} ] |}.

Definition messy_errors : list string :=
  [ "max level is below 1"%string;
    "default style is not listed in meta"%string;
    "some default difficulties are missing from meta"%string;
    "default level bounds are reversed"%string;
    "default level bounds are beyond max level"%string;
    "missing translation for single"%string;
    "missing translation for basic"%string;
    "missing abbreviated translation for basic"%string;
    "missing jacket image missing.png"%string;
    "unrecognized style " +:+ dquote +:+ "double" +:+ dquote +:+ " used by Song B";
    "unrecognized diffClass " +:+ dquote +:+ "expert" +:+ dquote +:+ " used by Song B";
    "Song B has chart above level max"%string ].

(** A runtime: strings and built-ins without properties, paths joined with
    a slash, and a disk that holds the one jacket. *)
Definition primitive_get (v : JSValue) (k : string) : JSValue := VUndefined.

Definition join (parts : list string) : string :=
  foldr (fun part rest =>
           if String.eqb rest "" then part else part +:+ "/" +:+ rest)
        ""%string parts.

Definition resolve (path : string) : string := path.

Definition dirname : string := "/repo/scripts".

Definition disk : gmap string string :=
  {[ "/repo/scripts/../src/assets/jackets/a.png"%string := "PNG"%string ]}.

(** A stand-in for the schema validator: it refuses a document without
    songs. *)
Definition validateJSONSchema (d : GameData) : ValidatorResult :=
  match d.(songs) with
  | [] => {| valid := false;
             errors := ["instance.songs does not meet minimum length of 1"%string] |}
  | _ :: _ => {| valid := true; errors := [] |}
  end.

Definition empty : GameData :=
  {| meta := catalog_meta None;
     defaults := catalog_defaults;
     i18n := {| I18N.en := english_plain;
                I18N.locales := {[ "ja"%string := japanese ]} |};
     songs := [] |}.

(** A stand-in for the generator. *)
Definition compile (name banner : string) : Completion string :=
  Normal (banner +:+ newline +:+ "export interface " +:+ name).

(** Every directory is there and can be written. *)
Definition writable (path : string) : bool := true.

(** No path can be written, as in a tree that has no [src/models]. *)
Definition read_only (path : string) : bool := false.

Definition generated : string :=
  bannerComment +:+ newline +:+ "export interface SongData".

Definition printed : list Line :=
  [ Log "good.json looks good!";
    Log "Building schema file";
    Log "Schema written to  src/models/SongData.ts" ].

Definition disk_after : gmap string string :=
  <[ "/repo/scripts/../src/models/SongData.ts"%string := generated ]> disk.

(** The chart and the song of [messy]. *)
Definition messy_chart : Chart.t :=
  {| Chart.style := "double";
     Chart.diffClass := "expert";
     Chart.lvl := Some 15;
     Chart.drawGroup := None |}.

Definition messy_song : Song.t :=
  {| Song.name := "Song B";
     Song.jacket := Some "missing.png"%string;
     Song.charts := [messy_chart] |}.

(** A flag named as a property that every object inherits, and no
    translation of it. *)
Definition quirky : GameData :=
  {| meta := {| Meta.styles := ["single"%string];
                Meta.difficulties := [ {| Difficulty.key := "basic" |} ];
                Meta.flags := ["constructor"%string];
                Meta.lvlMax := 19;
                Meta.usesDrawGroups := Some true |};
     defaults := catalog_defaults;
     i18n := {| I18N.en := english;
                I18N.locales := {[ "ja"%string := japanese ]} |};
     songs := [song (Some 12)] |}.

(** The locales of [good] and a Korean one. *)
Definition three_locales : I18N.t :=
  {| I18N.en := english;
     I18N.locales := {[ "ja"%string := japanese; "ko"%string := (∅ : I18NDict) ]} |}.

(** A disk seen through the one path of the jacket. *)
Definition jacket_only (path : string) : bool :=
  String.eqb path "/repo/scripts/../src/assets/jackets/a.png".

End Sample.

Section Runtime.

(** What [s[k]] reads on a primitive string, and [v[k]] on a number or a
    built-in: a length, a character, an inherited method, or undefined.
    Reading a property of a string does not throw. The checks read
    properties of dictionaries and of what is under [$abbr] only, which is
    a dictionary, a string or undefined, [$abbr] not being inherited. *)
Variable primitive_get : JSValue → string → JSValue.

(** [path.join], [path.resolve] and the script's directory. *)
Variable join : list string → string.
Variable resolve : string → string.
Variable dirname : string.

(** [v[k]]: reading a property of undefined is a TypeError. *)
Definition get (v : JSValue) (k : string) : Completion JSValue :=
  match v with
  | VUndefined => Throw TypeError
  | VObject d => Normal (get_object d k)
  | _ => Normal (primitive_get v k)
  end.

(** [dict["$abbr"][key]] *)
Definition get_abbr (dict : I18NDict) (k : string) : Completion JSValue :=
  bindC (get (VObject dict) "$abbr") (fun abbr => get abbr k).

(** [src/game-data-utils.tsx]; the casts leave no trace at run time. *)
Definition getDiffAbbr (gameData : GameData) (diffClass : string) : Completion JSValue :=
  get_abbr gameData.(i18n).(I18N.en) diffClass.

Definition jacketsDir : string := resolve (join [dirname; "../src/assets/jackets"%string]).

Section Disk.

(** [fs.existsSync] at the time of the call. *)
Variable existsSync : string → bool.

Definition validateContents (dataFile : GameData) : Completion (list string) :=
  let allKeys :=
    dataFile.(meta).(Meta.styles)
    ++ map Difficulty.key dataFile.(meta).(Meta.difficulties)
    ++ dataFile.(meta).(Meta.flags) in
  let styles : gset string := list_to_set dataFile.(meta).(Meta.styles) in
  let difficulties : gset string :=
    list_to_set (map Difficulty.key dataFile.(meta).(Meta.difficulties)) in
  let body : Check unit :=
    when (dataFile.(meta).(Meta.lvlMax) <? 1)
      (push "max level is below 1") ;;
    when (match dataFile.(defaults).(Defaults.style) with
          | Some style => truthy (VString style) && negb (has styles style)
          | None => false
          end)
      (push "default style is not listed in meta") ;;
    when (existsb (fun d => negb (has difficulties d))
            dataFile.(defaults).(Defaults.difficulties))
      (push "some default difficulties are missing from meta") ;;
    when (dataFile.(defaults).(Defaults.upperLvlBound)
          <? dataFile.(defaults).(Defaults.lowerLvlBound))
      (push "default level bounds are reversed") ;;
    when ((dataFile.(meta).(Meta.lvlMax) <? dataFile.(defaults).(Defaults.lowerLvlBound))
          || (dataFile.(meta).(Meta.lvlMax) <? dataFile.(defaults).(Defaults.upperLvlBound)))
      (push "default level bounds are beyond max level") ;;
    match dataFile.(i18n).(I18N.locales) !! "ja" with
    | Some ja =>
        for_of allKeys (fun key =>
          untranslated ← lift (js_not
            (js_and (get (VObject dataFile.(i18n).(I18N.en)) key)
                    (get (VObject ja) key)));
          when untranslated (push ("missing translation for " +:+ key)) ;;
          if has difficulties key then
            unabbreviated ← lift (js_not
              (js_and (get_abbr dataFile.(i18n).(I18N.en) key)
                      (get_abbr ja key)));
            when unabbreviated
              (push ("missing abbreviated translation for " +:+ key))
          else mret tt)
    | None => mret tt
    end ;;
    for_of dataFile.(songs) (fun song =>
      match song.(Song.jacket) with
      | Some jacket =>
          when (truthy (VString jacket))
            (let jacketPath := join [jacketsDir; jacket] in
             when (negb (existsSync jacketPath))
               (push ("missing jacket image " +:+ jacket)))
      | None => mret tt
      end ;;
      for_of song.(Song.charts) (fun chart =>
        when (negb (has styles chart.(Chart.style)))
          (push ("unrecognized style " +:+ dquote +:+ chart.(Chart.style)
                 +:+ dquote +:+ " used by " +:+ song.(Song.name))) ;;
        when (negb (has difficulties chart.(Chart.diffClass)))
          (push ("unrecognized diffClass " +:+ dquote +:+ chart.(Chart.diffClass)
                 +:+ dquote +:+ " used by " +:+ song.(Song.name))) ;;
        if truthy_bool dataFile.(meta).(Meta.usesDrawGroups) then
          if negb (truthy_number chart.(Chart.drawGroup)) then
            push (song.(Song.name) +:+ " is missing a draw group")
          else
            when (js_gt chart.(Chart.drawGroup) dataFile.(meta).(Meta.lvlMax))
              (push (song.(Song.name) +:+ " has draw group above max"))
        else
          when (js_gt chart.(Chart.lvl) dataFile.(meta).(Meta.lvlMax))
            (push (song.(Song.name) +:+ " has chart above level max")))) in
  match body [] with
  | Normal (_, errors) => Normal errors
  | Throw e => Throw e
  end.

End Disk.

(** The documents as imported, the schema validator with [songsSchema] and
    its options applied, and the record [validateContents] reads off a
    document. *)
Variable SongData : Type.
Variable validateJSONSchema : SongData → ValidatorResult.
Variable read : SongData → GameData.

(** [json-schema-to-typescript]'s [compile] applied to [songsSchema]. *)
Variable compile : string → string → Completion string.

(** The paths [fs.writeFileSync] can write: those in a directory that exists
    and grants the write. The script makes and removes no directory and
    changes no permission, so that a run does not change them. *)
Variable writable : string → bool.

(** One turn of the loop over [dataFileNames]. *)
Definition validateFile (dataFile : string) (songData : SongData) : Script unit :=
  let result := validateJSONSchema songData in
  if result.(valid) then
    disk ← read_files;
    consistencyErrors ← call (validateContents (existsSync_on disk) (read songData));
    if negb (length consistencyErrors =? 0)%nat then
      for_of consistencyErrors (fun err => console_error (" * " +:+ err)) ;;
      console_log (newline +:+ dataFile +:+ " has inconsistent data!") ;;
      set_hasError true
    else
      console_log (dataFile +:+ " looks good!")
  else
    for_of result.(errors) (fun error => console_error error) ;;
    console_log (dataFile +:+ " has issues!") ;;
    set_hasError true.

(** Where the script writes the generated types. *)
Definition schemaPath : string :=
  resolve (join [dirname; ".."%string; schemaLocation]).

(** The script from [let hasError = false] to its last line. *)
Definition main (dataFiles : list (string * SongData)) : Script unit :=
  set_hasError false ;;
  for_of dataFiles (fun '(dataFile, songData) => validateFile dataFile songData) ;;
  failed ← read_hasError;
  when failed (process_exit 1) ;;
  console_log "Building schema file" ;;
  ts ← call (compile "SongData" bannerComment);
  writeFileSync writable schemaPath ts ;;
  console_log ("Schema written to " +:+ " " +:+ schemaLocation).

(** A run of the script on a disk: what it printed, how it ended, and the
    disk it leaves. *)
Definition run (dataFiles : list (string * SongData)) (disk : gmap string string)
    : Outcome unit * list Line * gmap string string :=
  let '(outcome, st) :=
    main dataFiles {| hasError := false; console := []; files := disk |} in
  (outcome, st.(console), st.(files)).

(** ** The errors check by check

    What each check of [validateContents] contributes, as a function of the
    document, in the order the specification lists the checks. *)

Definition allKeys (d : GameData) : list string :=
  d.(meta).(Meta.styles)
  ++ map Difficulty.key d.(meta).(Meta.difficulties)
  ++ d.(meta).(Meta.flags).

Definition styleSet (d : GameData) : gset string :=
  list_to_set d.(meta).(Meta.styles).

Definition difficultySet (d : GameData) : gset string :=
  list_to_set (map Difficulty.key d.(meta).(Meta.difficulties)).

Definition level_max_errors (d : GameData) : list string :=
  if d.(meta).(Meta.lvlMax) <? 1 then ["max level is below 1"%string] else [].

Definition default_style_errors (d : GameData) : list string :=
  match d.(defaults).(Defaults.style) with
  | Some style =>
      if negb (String.eqb style "") && negb (has (styleSet d) style)
      then ["default style is not listed in meta"%string] else []
  | None => []
  end.

Definition default_difficulties_errors (d : GameData) : list string :=
  if forallb (has (difficultySet d)) d.(defaults).(Defaults.difficulties)
  then [] else ["some default difficulties are missing from meta"%string].

Definition bounds_reversed_errors (d : GameData) : list string :=
  if d.(defaults).(Defaults.upperLvlBound) <? d.(defaults).(Defaults.lowerLvlBound)
  then ["default level bounds are reversed"%string] else [].

Definition bounds_beyond_max_errors (d : GameData) : list string :=
  if (d.(meta).(Meta.lvlMax) <? d.(defaults).(Defaults.lowerLvlBound))
     || (d.(meta).(Meta.lvlMax) <? d.(defaults).(Defaults.upperLvlBound))
  then ["default level bounds are beyond max level"%string] else [].

(** [dict[key]] is truthy: the key has a translation as the check sees it. *)
Definition translated (dict : I18NDict) (k : string) : bool :=
  truthy (get_object dict k).

(** The value of [dict["$abbr"][key]], when reading it does not throw. *)
Definition abbr_value (dict : I18NDict) (k : string) : option JSValue :=
  match dict !! "$abbr"%string with
  | Some (IDict abbr) => Some (get_object abbr k)
  | Some (IStr s) => Some (primitive_get (VString s) k)
  | None => None
  end.

Definition abbreviated (dict : I18NDict) (k : string) : bool :=
  match abbr_value dict k with
  | Some v => truthy v
  | None => false
  end.

Definition has_abbr (dict : I18NDict) : bool :=
  bool_decide (is_Some (dict !! "$abbr"%string)).

(** The abbreviation check of a key reads a property of undefined. *)
Definition key_faults (d : GameData) (ja : I18NDict) (k : string) : bool :=
  has (difficultySet d) k
  && (negb (has_abbr d.(i18n).(I18N.en))
      || (abbreviated d.(i18n).(I18N.en) k && negb (has_abbr ja))).

Definition key_errors (d : GameData) (ja : I18NDict) (k : string) : list string :=
  (if translated d.(i18n).(I18N.en) k && translated ja k then []
   else ["missing translation for " +:+ k])
  ++ (if has (difficultySet d) k
         && negb (abbreviated d.(i18n).(I18N.en) k && abbreviated ja k)
      then ["missing abbreviated translation for " +:+ k] else []).

Definition translation_errors (d : GameData) : list string :=
  match d.(i18n).(I18N.locales) !! "ja"%string with
  | Some ja => concat (map (key_errors d ja) (allKeys d))
  | None => []
  end.

(** The document on which [validateContents] throws. *)
Definition faults (d : GameData) : bool :=
  match d.(i18n).(I18N.locales) !! "ja"%string with
  | Some ja => existsb (key_faults d ja) (allKeys d)
  | None => false
  end.

Definition jacket_errors (existsSync : string → bool) (song : Song.t) : list string :=
  match song.(Song.jacket) with
  | Some jacket =>
      if negb (String.eqb jacket "") && negb (existsSync (join [jacketsDir; jacket]))
      then ["missing jacket image " +:+ jacket] else []
  | None => []
  end.

Definition chart_style_errors (d : GameData) (song : Song.t) (chart : Chart.t)
    : list string :=
  if has (styleSet d) chart.(Chart.style) then []
  else ["unrecognized style " +:+ dquote +:+ chart.(Chart.style)
        +:+ dquote +:+ " used by " +:+ song.(Song.name)].

Definition chart_diffClass_errors (d : GameData) (song : Song.t) (chart : Chart.t)
    : list string :=
  if has (difficultySet d) chart.(Chart.diffClass) then []
  else ["unrecognized diffClass " +:+ dquote +:+ chart.(Chart.diffClass)
        +:+ dquote +:+ " used by " +:+ song.(Song.name)].

Definition chart_level_errors (d : GameData) (song : Song.t) (chart : Chart.t)
    : list string :=
  if truthy_bool d.(meta).(Meta.usesDrawGroups) then
    match chart.(Chart.drawGroup) with
    | None => [song.(Song.name) +:+ " is missing a draw group"]
    | Some g =>
        if g =? 0 then [song.(Song.name) +:+ " is missing a draw group"]
        else if d.(meta).(Meta.lvlMax) <? g
             then [song.(Song.name) +:+ " has draw group above max"] else []
    end
  else
    match chart.(Chart.lvl) with
    | Some l =>
        if d.(meta).(Meta.lvlMax) <? l
        then [song.(Song.name) +:+ " has chart above level max"] else []
    | None => []
    end.

Definition chart_errors (d : GameData) (song : Song.t) (chart : Chart.t)
    : list string :=
  chart_style_errors d song chart
  ++ chart_diffClass_errors d song chart
  ++ chart_level_errors d song chart.

Definition song_errors (existsSync : string → bool) (d : GameData) (song : Song.t)
    : list string :=
  jacket_errors existsSync song
  ++ concat (map (chart_errors d song) song.(Song.charts)).

Definition expected_errors (existsSync : string → bool) (d : GameData) : list string :=
  level_max_errors d
  ++ default_style_errors d
  ++ default_difficulties_errors d
  ++ bounds_reversed_errors d
  ++ bounds_beyond_max_errors d
  ++ translation_errors d
  ++ concat (map (song_errors existsSync d) d.(songs)).

(** ** The invariants of a document *)

Definition difficultyKeys (d : GameData) : list string :=
  map Difficulty.key d.(meta).(Meta.difficulties).

(** The dictionary holds a display string of its own under the key, and the
    string is not empty. *)
Definition has_translation (dict : I18NDict) (k : string) : bool :=
  match dict !! k with
  | Some (IStr s) => negb (String.eqb s "")
  | _ => false
  end.

(** The same for the abbreviation, in the dictionary under [$abbr]. *)
Definition has_abbreviation (dict : I18NDict) (k : string) : bool :=
  match dict !! "$abbr"%string with
  | Some (IDict abbr) => has_translation abbr k
  | _ => false
  end.

(** The invariants the specification lists for a document (section 3),
    [locales] holding the locales other than English. *)
Record consistent (existsSync : string → bool) (d : GameData) : Prop := {
  lvlMax_positive :
    1 ≤ d.(meta).(Meta.lvlMax);
  default_style_listed :
    ∀ style, d.(defaults).(Defaults.style) = Some style →
      style ∈ d.(meta).(Meta.styles);
  default_difficulties_listed :
    ∀ x, x ∈ d.(defaults).(Defaults.difficulties) → x ∈ difficultyKeys d;
  bounds_ordered :
    d.(defaults).(Defaults.lowerLvlBound) ≤ d.(defaults).(Defaults.upperLvlBound)
    ∧ d.(defaults).(Defaults.upperLvlBound) ≤ d.(meta).(Meta.lvlMax);
  translations_complete :
    ∀ tag dict, d.(i18n).(I18N.locales) !! tag = Some dict →
      ∀ k, k ∈ allKeys d →
        has_translation d.(i18n).(I18N.en) k = true
        ∧ has_translation dict k = true;
  abbreviations_complete :
    ∀ tag dict, d.(i18n).(I18N.locales) !! tag = Some dict →
      ∀ k, k ∈ difficultyKeys d →
        has_abbreviation d.(i18n).(I18N.en) k = true
        ∧ has_abbreviation dict k = true;
  jackets_exist :
    ∀ song jacket, song ∈ d.(songs) → song.(Song.jacket) = Some jacket →
      existsSync (join [jacketsDir; jacket]) = true;
  charts_recognized :
    ∀ song chart, song ∈ d.(songs) → chart ∈ song.(Song.charts) →
      chart.(Chart.style) ∈ d.(meta).(Meta.styles)
      ∧ chart.(Chart.diffClass) ∈ difficultyKeys d;
  charts_levelled :
    ∀ song chart, song ∈ d.(songs) → chart ∈ song.(Song.charts) →
      if truthy_bool d.(meta).(Meta.usesDrawGroups)
      then ∃ g, chart.(Chart.drawGroup) = Some g ∧ g ≤ d.(meta).(Meta.lvlMax)
      else ∀ l, chart.(Chart.lvl) = Some l → l ≤ d.(meta).(Meta.lvlMax)
}.

(** No chart has the draw group 0 where draw groups are in use. *)
Definition drawGroups_nonzero (d : GameData) : Prop :=
  truthy_bool d.(meta).(Meta.usesDrawGroups) = true →
  ∀ song chart, song ∈ d.(songs) → chart ∈ song.(Song.charts) →
    chart.(Chart.drawGroup) ≠ Some 0.

(** The abbreviation dictionaries the abbreviation check reads are there:
    the English one, and the Japanese one for each difficulty key whose
    English abbreviation is truthy. *)
Definition abbr_present (d : GameData) : Prop :=
  ∀ ja, d.(i18n).(I18N.locales) !! "ja"%string = Some ja →
    ∀ k, k ∈ difficultyKeys d →
      is_Some (d.(i18n).(I18N.en) !! "$abbr"%string)
      ∧ (abbreviated d.(i18n).(I18N.en) k = true → is_Some (ja !! "$abbr"%string)).

(** The document with other default flags. *)
Definition with_default_flags (flags' : list string) (d : GameData) : GameData :=
  {| meta := d.(meta);
     defaults := {| Defaults.style := d.(defaults).(Defaults.style);
                    Defaults.difficulties := d.(defaults).(Defaults.difficulties);
                    Defaults.flags := flags';
                    Defaults.lowerLvlBound := d.(defaults).(Defaults.lowerLvlBound);
                    Defaults.upperLvlBound := d.(defaults).(Defaults.upperLvlBound) |};
     i18n := d.(i18n);
     songs := d.(songs) |}.

(** The message of the check that [validateContents] has in a comment. *)
Definition default_flags_message : string :=
  "some default flags are missing from meta".

Fixpoint last_char (s : string) : option Ascii.ascii :=
  match s with
  | EmptyString => None
  | String c s' =>
      match s' with
      | EmptyString => Some c
      | String _ _ => last_char s'
      end
  end.

(** The document passes both validations on the disk: nothing to report. *)
Definition clean (disk : gmap string string) (entry : string * SongData) : Prop :=
  (validateJSONSchema entry.2).(valid) = true
  ∧ validateContents (existsSync_on disk) (read entry.2) = Normal [].

Definition looks_good (entry : string * SongData) : Line :=
  Log (entry.1 +:+ " looks good!").

(** ** The rest of [src/game-data-utils.tsx] *)

(** [t] is the translation function of the caller, from a path to the
    string to display. *)
Definition getMetaString (t : string → string) (key : string) : string :=
  t ("meta." +:+ key).

Definition getDiffClass (t : string → string) (diffClassKey : string) : string :=
  t ("meta.$abbr." +:+ diffClassKey).

(** ** Documents that differ in one part *)

(** The document with another [i18n]. *)
Definition with_i18n (i : I18N.t) (d : GameData) : GameData :=
  {| meta := d.(meta); defaults := d.(defaults); i18n := i; songs := d.(songs) |}.

(** The document with every chart changed by [f]. *)
Definition map_charts (f : Chart.t → Chart.t) (d : GameData) : GameData :=
  {| meta := d.(meta);
     defaults := d.(defaults);
     i18n := d.(i18n);
     songs := map (fun song =>
                {| Song.name := song.(Song.name);
                   Song.jacket := song.(Song.jacket);
                   Song.charts := map f song.(Song.charts) |}) d.(songs) |}.

Definition set_lvl (lvl : Chart.t → option Z) (chart : Chart.t) : Chart.t :=
  {| Chart.style := chart.(Chart.style);
     Chart.diffClass := chart.(Chart.diffClass);
     Chart.lvl := lvl chart;
     Chart.drawGroup := chart.(Chart.drawGroup) |}.

Definition set_drawGroup (drawGroup : Chart.t → option Z) (chart : Chart.t) : Chart.t :=
  {| Chart.style := chart.(Chart.style);
     Chart.diffClass := chart.(Chart.diffClass);
     Chart.lvl := chart.(Chart.lvl);
     Chart.drawGroup := drawGroup chart |}.

(** The messages that hold no key, file or song name. *)
Definition fixed_messages : list string :=
  [ "max level is below 1"%string;
    "default style is not listed in meta"%string;
    "some default difficulties are missing from meta"%string;
    "default level bounds are reversed"%string;
    "default level bounds are beyond max level"%string ].

(** ** What the loop prints for a document *)

(** The lines of one turn of the loop, on a document that does not make
    [validateContents] throw. *)
Definition report (disk : gmap string string) (entry : string * SongData)
    : list Line :=
  if (validateJSONSchema entry.2).(valid) then
    match validateContents (existsSync_on disk) (read entry.2) with
    | Normal [] => [Log (entry.1 +:+ " looks good!")]
    | Normal consistencyErrors =>
        map (fun err => Error (" * " +:+ err)) consistencyErrors
        ++ [Log (newline +:+ entry.1 +:+ " has inconsistent data!")]
    | Throw _ => []
    end
  else
    map Error (validateJSONSchema entry.2).(errors)
    ++ [Log (entry.1 +:+ " has issues!")].

(** The document passes both validations, as a test. *)
Definition passes (disk : gmap string string) (entry : string * SongData) : bool :=
  (validateJSONSchema entry.2).(valid)
  && match validateContents (existsSync_on disk) (read entry.2) with
     | Normal [] => true
     | _ => false
     end.

(** The turn of the loop on the document ends without an exception. *)
Definition completes (disk : gmap string string) (entry : string * SongData) : Prop :=
  (validateJSONSchema entry.2).(valid) = true →
  ∃ consistencyErrors,
    validateContents (existsSync_on disk) (read entry.2) = Normal consistencyErrors.

(** ** Running a [Check] *)

(** A computation that pushes the messages of [r], or throws as [r] does,
    whatever [errors] holds already. *)
Definition emits (c : Check unit) (r : Completion (list string)) : Prop :=
  ∀ errors,
    c errors = match r with
               | Normal l => Normal (tt, errors ++ l)
               | Throw e => Throw e
               end.

Definition seqC (r1 r2 : Completion (list string)) : Completion (list string) :=
  bindC r1 (fun l1 => bindC r2 (fun l2 => Normal (l1 ++ l2))).

Definition collect (rs : list (Completion (list string))) : Completion (list string) :=
  foldr seqC (Normal []) rs.

Lemma emits_ret : emits (mret tt) (Normal []).
Proof. intros errors. unfold mret, Check_ret. by rewrite app_nil_r. Qed.

Lemma emits_push msg : emits (push msg) (Normal [msg]).
Proof. by intros errors. Qed.

Lemma emits_when b c l :
  emits c (Normal l) → emits (when b c) (Normal (if b then l else [])).
Proof. destruct b; simpl; [done | intros _; apply emits_ret]. Qed.

Lemma emits_seq c1 c2 r1 r2 :
  emits c1 r1 → emits c2 r2 → emits (c1 ;; c2) (seqC r1 r2).
Proof.
  intros H1 H2 errors. unfold mbind, Check_bind. rewrite H1.
  destruct r1 as [l1|e1]; simpl; [|done].
  rewrite H2. destruct r2 as [l2|e2]; simpl; [|done].
  by rewrite app_assoc.
Qed.

Lemma emits_for_of {A} (xs : list A) body f :
  (∀ x, emits (body x) (f x)) → emits (for_of xs body) (collect (map f xs)).
Proof.
  intros Hbody. induction xs as [|x xs IH]; simpl.
  - apply emits_ret.
  - by apply emits_seq.
Qed.

Lemma collect_Normal {A} (f : A → list string) xs :
  collect (map (fun x => Normal (f x)) xs) = Normal (concat (map f xs)).
Proof.
  unfold collect. induction xs as [|x xs IH]; simpl; [done|].
  by rewrite IH.
Qed.

Lemma collect_guarded {A} (bad : A → bool) (f : A → list string) xs :
  collect (map (fun x => if bad x then Throw TypeError else Normal (f x)) xs)
  = if existsb bad xs then Throw TypeError else Normal (concat (map f xs)).
Proof.
  unfold collect. induction xs as [|x xs IH]; simpl; [done|].
  rewrite IH. destruct (bad x); simpl; [done|]. by destruct (existsb bad xs).
Qed.

(** ** [validateContents], check by check *)

Lemma get_abbr_value dict k :
  get_abbr dict k = match abbr_value dict k with
                    | Some v => Normal v
                    | None => Throw TypeError
                    end.
Proof.
  unfold get_abbr, abbr_value, get_object; simpl. unfold get_object.
  destruct (dict !! "$abbr"%string) as [[s|abbr]|] eqn:E; simpl; try done.
Qed.

Lemma has_abbr_value dict k :
  has_abbr dict = match abbr_value dict k with Some _ => true | None => false end.
Proof.
  unfold has_abbr, abbr_value.
  by destruct (dict !! "$abbr"%string) as [[s|abbr]|].
Qed.

Lemma js_not_and a b :
  js_not (js_and a b)
  = match a with
    | Normal x =>
        if truthy x
        then match b with
             | Normal y => Normal (negb (truthy y))
             | Throw e => Throw e
             end
        else Normal true
    | Throw e => Throw e
    end.
Proof.
  destruct a as [x|e]; simpl; [|done].
  destruct (truthy x) eqn:E; simpl; [by destruct b | by rewrite E].
Qed.

Lemma existsb_negb_forallb {A} (p : A → bool) l :
  existsb (fun x => negb (p x)) l = negb (forallb p l).
Proof.
  induction l as [|x l IH]; simpl; [done|].
  rewrite IH. by destruct (p x).
Qed.

Lemma emits_key d ja k :
  emits
    (untranslated ← lift (js_not
        (js_and (get (VObject d.(i18n).(I18N.en)) k) (get (VObject ja) k)));
     when untranslated (push ("missing translation for " +:+ k)) ;;
     if has (difficultySet d) k then
       unabbreviated ← lift (js_not
         (js_and (get_abbr d.(i18n).(I18N.en) k) (get_abbr ja k)));
       when unabbreviated (push ("missing abbreviated translation for " +:+ k))
     else mret tt)
    (if key_faults d ja k then Throw TypeError else Normal (key_errors d ja k)).
Proof.
  intros errors. unfold key_faults, key_errors, translated, abbreviated.
  rewrite !get_abbr_value, (has_abbr_value _ k), (has_abbr_value ja k).
  rewrite !js_not_and. simpl.
  unfold mbind, Check_bind, lift, when, push, mret, Check_ret.
  destruct (truthy (get_object (I18N.en (i18n d)) k));
    [destruct (truthy (get_object ja k))|];
    (destruct (has (difficultySet d) k); simpl; [|by rewrite ?app_nil_r]);
    (destruct (abbr_value (I18N.en (i18n d)) k) as [v|]; simpl; [|done]);
    (destruct (truthy v); simpl; [|by rewrite ?app_nil_r, <- ?app_assoc]);
    (destruct (abbr_value ja k) as [w|]; simpl; [|done]);
    destruct (truthy w); simpl; by rewrite ?app_nil_r, <- ?app_assoc.
Qed.

Lemma emits_if (b : bool) c1 c2 r1 r2 :
  emits c1 r1 → emits c2 r2 →
  emits (if b then c1 else c2) (if b then r1 else r2).
Proof. by destruct b. Qed.

Lemma emits_when_push b msg :
  emits (when b (push msg)) (Normal (if b then [msg] else [])).
Proof. apply emits_when, emits_push. Qed.

Lemma emits_option {A} (o : option A) c1 c2 r1 r2 :
  (∀ a, emits (c1 a) (r1 a)) → emits c2 r2 →
  emits (match o with Some a => c1 a | None => c2 end)
        (match o with Some a => r1 a | None => r2 end).
Proof. by destruct o. Qed.

Ltac emits_steps :=
  repeat first
    [ apply emits_key
    | apply emits_when_push
    | apply emits_push
    | apply emits_ret
    | eapply emits_seq
    | eapply emits_when
    | eapply emits_if
    | eapply emits_option; [intros ?|]
    | eapply emits_for_of; intros ? ].

Lemma run_emits c r :
  emits c r →
  match c [] with
  | Normal (_, errors) => Normal errors
  | Throw e => Throw e
  end = r.
Proof. intros H. rewrite H. by destruct r. Qed.

(** What [validateContents] does on every document: it throws when an
    abbreviation check reads a property of undefined, and returns the
    errors of the checks, in their order, otherwise. *)
Lemma validateContents_eq existsSync d :
  validateContents existsSync d
  = if faults d then Throw TypeError else Normal (expected_errors existsSync d).
Proof.
  unfold validateContents.
  etrans.
  { apply run_emits.
    emits_steps. }
  rewrite (map_ext _ (fun song => Normal (song_errors existsSync d song))).
  2: { intros song.
       rewrite (map_ext _ (fun chart => Normal (chart_errors d song chart))).
       2: { intros chart.
            unfold chart_errors, chart_style_errors, chart_diffClass_errors,
              chart_level_errors, styleSet, difficultySet, truthy_number, js_gt.
            destruct (has _ (Chart.style chart)), (has _ (Chart.diffClass chart)),
              (truthy_bool _); simpl.
            all: first [ destruct (Chart.drawGroup chart) as [g|]; simpl;
                         [destruct (g =? 0); simpl; [|destruct (_ <? g)] |]
                       | destruct (Chart.lvl chart) as [l|]; simpl;
                         [destruct (_ <? l)|] ];
              done. }
       rewrite collect_Normal. unfold song_errors, jacket_errors.
       destruct (Song.jacket song) as [jacket|]; simpl; [|done].
       by destruct (String.eqb jacket ""), (existsSync _). }
  rewrite collect_Normal, existsb_negb_forallb.
  unfold faults, expected_errors, translation_errors, allKeys, level_max_errors,
    default_style_errors, default_difficulties_errors, bounds_reversed_errors,
    bounds_beyond_max_errors, styleSet, difficultySet.
  destruct (I18N.locales (i18n d) !! "ja"%string) as [ja|];
    [rewrite collect_guarded; destruct (existsb _ _)|];
    destruct (Defaults.style (defaults d)) as [style|];
    destruct (forallb _ _); done.
Qed.

Lemma validateContents_Normal existsSync d errors :
  validateContents existsSync d = Normal errors →
  faults d = false ∧ errors = expected_errors existsSync d.
Proof.
  rewrite validateContents_eq. destruct (faults d); [done|].
  intros [= <-]. done.
Qed.

Lemma elem_of_concat_map {A} (f : A → list string) (xs : list A) x msg :
  x ∈ xs → msg ∈ f x → msg ∈ concat (map f xs).
Proof.
  intros Hx Hmsg. apply list_elem_of_In, in_concat.
  exists (f x). split; [|by apply list_elem_of_In].
  apply in_map. by apply list_elem_of_In.
Qed.

Lemma elem_of_song_errors existsSync d song msg :
  song ∈ d.(songs) → msg ∈ song_errors existsSync d song →
  msg ∈ expected_errors existsSync d.
Proof.
  intros Hsong Hmsg. unfold expected_errors.
  rewrite !elem_of_app. do 6 right.
  by apply elem_of_concat_map with song.
Qed.

Lemma elem_of_chart_errors existsSync d song chart msg :
  song ∈ d.(songs) → chart ∈ song.(Song.charts) → msg ∈ chart_errors d song chart →
  msg ∈ expected_errors existsSync d.
Proof.
  intros Hsong Hchart Hmsg. apply elem_of_song_errors with song; [done|].
  unfold song_errors. rewrite elem_of_app. right.
  by apply elem_of_concat_map with chart.
Qed.

Lemma elem_of_key_errors existsSync d ja k msg :
  d.(i18n).(I18N.locales) !! "ja"%string = Some ja →
  k ∈ allKeys d → msg ∈ key_errors d ja k →
  msg ∈ expected_errors existsSync d.
Proof.
  intros Hja Hk Hmsg. unfold expected_errors, translation_errors.
  rewrite Hja, !elem_of_app. do 5 right. left.
  by apply elem_of_concat_map with k.
Qed.

(** ** The order of the errors *)

(** C8: the errors [validateContents] returns are, in this order, those of
    the level-max check, of the default style, of the default difficulties,
    of the reversed bounds, of the bounds beyond the maximum, of the
    translations key by key, and then song by song the jacket error followed
    chart by chart by the style, diffClass and draw-group or level errors. *)
Theorem validateContents_order existsSync d errors :
  validateContents existsSync d = Normal errors →
  errors
  = level_max_errors d
    ++ default_style_errors d
    ++ default_difficulties_errors d
    ++ bounds_reversed_errors d
    ++ bounds_beyond_max_errors d
    ++ translation_errors d
    ++ concat (map (fun song =>
         jacket_errors existsSync song
         ++ concat (map (fun chart =>
              chart_style_errors d song chart
              ++ chart_diffClass_errors d song chart
              ++ chart_level_errors d song chart) song.(Song.charts)))
         d.(songs)).
Proof. intros H. by apply validateContents_Normal in H as [_ ->]. Qed.

(** ** Draw groups *)

(** C4: with [usesDrawGroups] true, a chart without [drawGroup] puts
    "<song name> is missing a draw group" in the returned errors. *)
Theorem missing_drawGroup_reported existsSync d song chart errors :
  d.(meta).(Meta.usesDrawGroups) = Some true →
  song ∈ d.(songs) →
  chart ∈ song.(Song.charts) →
  chart.(Chart.drawGroup) = None →
  validateContents existsSync d = Normal errors →
  (song.(Song.name) +:+ " is missing a draw group") ∈ errors.
Proof.
  intros Huses Hsong Hchart Hgroup Hrun.
  apply validateContents_Normal in Hrun as [_ ->].
  apply elem_of_chart_errors with song chart; [done..|].
  unfold chart_errors, chart_level_errors. rewrite Huses, Hgroup; simpl.
  rewrite !elem_of_app. do 2 right. apply list_elem_of_here.
Qed.

(** C9: with [usesDrawGroups] true, a chart whose [drawGroup] is 0 is
    reported as missing a draw group, the presence test being one of
    truthiness. *)
Theorem zero_drawGroup_reported existsSync d song chart errors :
  d.(meta).(Meta.usesDrawGroups) = Some true →
  song ∈ d.(songs) →
  chart ∈ song.(Song.charts) →
  chart.(Chart.drawGroup) = Some 0 →
  validateContents existsSync d = Normal errors →
  (song.(Song.name) +:+ " is missing a draw group") ∈ errors.
Proof.
  intros Huses Hsong Hchart Hgroup Hrun.
  apply validateContents_Normal in Hrun as [_ ->].
  apply elem_of_chart_errors with song chart; [done..|].
  unfold chart_errors, chart_level_errors. rewrite Huses, Hgroup; simpl.
  rewrite !elem_of_app. do 2 right. apply list_elem_of_here.
Qed.

(** ** Documents that satisfy the invariants *)

Lemma has_difficultySet d k : has (difficultySet d) k = true ↔ k ∈ difficultyKeys d.
Proof.
  unfold has, difficultySet, difficultyKeys.
  rewrite bool_decide_eq_true. apply elem_of_list_to_set.
Qed.

Lemma has_styleSet d k : has (styleSet d) k = true ↔ k ∈ d.(meta).(Meta.styles).
Proof.
  unfold has, styleSet. rewrite bool_decide_eq_true. apply elem_of_list_to_set.
Qed.

Lemma has_translation_translated dict k :
  has_translation dict k = true → translated dict k = true.
Proof.
  unfold has_translation, translated, get_object.
  by destruct (dict !! k) as [[s|sub]|].
Qed.

Lemma has_abbreviation_abbreviated dict k :
  has_abbreviation dict k = true →
  has_abbr dict = true ∧ abbreviated dict k = true.
Proof.
  unfold has_abbreviation, has_abbr, abbreviated, abbr_value.
  destruct (dict !! "$abbr"%string) as [[s|abbr]|]; [done| |done].
  intros H. split; [done|]. by apply has_translation_translated.
Qed.

Lemma existsb_false {A} (p : A → bool) xs :
  (∀ x, x ∈ xs → p x = false) → existsb p xs = false.
Proof.
  intros H. induction xs as [|x xs IH]; simpl; [done|].
  rewrite H, IH; [done| |apply list_elem_of_here].
  intros y Hy. apply H. by apply list_elem_of_further.
Qed.

Lemma concat_map_nil {A} (f : A → list string) xs :
  (∀ x, x ∈ xs → f x = []) → concat (map f xs) = [].
Proof.
  intros H. induction xs as [|x xs IH]; simpl; [done|].
  rewrite H, IH; [done| |apply list_elem_of_here].
  intros y Hy. apply H. by apply list_elem_of_further.
Qed.

Lemma abbr_present_faults d : abbr_present d → faults d = false.
Proof.
  intros Hsafe. unfold faults.
  destruct (I18N.locales (i18n d) !! "ja"%string) as [ja|] eqn:Hja; [|done].
  apply existsb_false. intros k _. unfold key_faults.
  destruct (has (difficultySet d) k) eqn:Hk; [|done]. simpl.
  apply has_difficultySet in Hk.
  destruct (Hsafe ja Hja k Hk) as [Hen Hjp].
  unfold has_abbr. rewrite (bool_decide_eq_true_2 _ Hen). simpl.
  destruct (abbreviated (I18N.en (i18n d)) k); [|done]. simpl.
  by rewrite (bool_decide_eq_true_2 _ (Hjp eq_refl)).
Qed.

Lemma consistent_abbr_present existsSync d : consistent existsSync d → abbr_present d.
Proof.
  intros Hc ja Hja k Hk.
  destruct (abbreviations_complete _ _ Hc _ _ Hja k Hk) as [Hen Hjp].
  apply has_abbreviation_abbreviated in Hen as [Hen _].
  apply has_abbreviation_abbreviated in Hjp as [Hjp _].
  unfold has_abbr in *. split; [|intros _]; by eapply bool_decide_eq_true_1.
Qed.

(** C1, amended: a document that satisfies the invariants, and in which no
    chart has the draw group 0 where draw groups are in use, has no error. *)
Theorem consistent_no_errors existsSync d :
  consistent existsSync d →
  drawGroups_nonzero d →
  validateContents existsSync d = Normal [].
Proof.
  intros Hc Hnz. rewrite validateContents_eq.
  rewrite (abbr_present_faults d (consistent_abbr_present _ _ Hc)).
  f_equal. unfold expected_errors.
  assert (level_max_errors d = []) as ->.
  { unfold level_max_errors. pose proof (lvlMax_positive _ _ Hc).
    by destruct (Z.ltb_spec (Meta.lvlMax (meta d)) 1); [lia|]. }
  assert (default_style_errors d = []) as ->.
  { unfold default_style_errors.
    destruct (Defaults.style (defaults d)) as [style|] eqn:Hstyle; [|done].
    apply (default_style_listed _ _ Hc), has_styleSet in Hstyle.
    rewrite Hstyle. by rewrite andb_false_r. }
  assert (default_difficulties_errors d = []) as ->.
  { unfold default_difficulties_errors.
    rewrite (proj2 (forallb_forall _ _)); [done|].
    intros x Hx. apply has_difficultySet, (default_difficulties_listed _ _ Hc).
    by apply list_elem_of_In. }
  destruct (bounds_ordered _ _ Hc) as [Hlu Hum].
  assert (bounds_reversed_errors d = []) as ->.
  { unfold bounds_reversed_errors.
    by destruct (Z.ltb_spec (Defaults.upperLvlBound (defaults d))
                   (Defaults.lowerLvlBound (defaults d))); [lia|]. }
  assert (bounds_beyond_max_errors d = []) as ->.
  { unfold bounds_beyond_max_errors.
    destruct (Z.ltb_spec (Meta.lvlMax (meta d))
                (Defaults.lowerLvlBound (defaults d))); [lia|].
    by destruct (Z.ltb_spec (Meta.lvlMax (meta d))
                   (Defaults.upperLvlBound (defaults d))); [lia|]. }
  assert (translation_errors d = []) as ->.
  { unfold translation_errors.
    destruct (I18N.locales (i18n d) !! "ja"%string) as [ja|] eqn:Hja; [|done].
    apply concat_map_nil. intros k Hk. unfold key_errors.
    destruct (translations_complete _ _ Hc _ _ Hja k Hk) as [Hen Hjp].
    rewrite (has_translation_translated _ _ Hen),
      (has_translation_translated _ _ Hjp). simpl.
    destruct (has (difficultySet d) k) eqn:Hdiff; [|done].
    apply has_difficultySet in Hdiff.
    destruct (abbreviations_complete _ _ Hc _ _ Hja k Hdiff) as [Haen Hajp].
    apply has_abbreviation_abbreviated in Haen as [_ ->].
    by apply has_abbreviation_abbreviated in Hajp as [_ ->]. }
  simpl. apply concat_map_nil. intros song Hsong. unfold song_errors.
  assert (jacket_errors existsSync song = []) as ->.
  { unfold jacket_errors.
    destruct (Song.jacket song) as [jacket|] eqn:Hjacket; [|done].
    rewrite (jackets_exist _ _ Hc song jacket Hsong Hjacket).
    by rewrite andb_false_r. }
  simpl. apply concat_map_nil. intros chart Hchart.
  destruct (charts_recognized _ _ Hc song chart Hsong Hchart) as [Hstyle Hdiff].
  unfold chart_errors, chart_style_errors, chart_diffClass_errors.
  rewrite (proj2 (has_styleSet _ _) Hstyle), (proj2 (has_difficultySet _ _) Hdiff).
  simpl. unfold chart_level_errors.
  pose proof (charts_levelled _ _ Hc song chart Hsong Hchart) as Hlevel.
  destruct (truthy_bool (Meta.usesDrawGroups (meta d))) eqn:Huses.
  - destruct Hlevel as (g & Hg & Hle). rewrite Hg.
    destruct (Z.eqb_spec g 0) as [->|_].
    + by destruct (Hnz Huses song chart Hsong Hchart).
    + by destruct (Z.ltb_spec (Meta.lvlMax (meta d)) g); [lia|].
  - destruct (Chart.lvl chart) as [l|]; [|done].
    specialize (Hlevel l eq_refl).
    by destruct (Z.ltb_spec (Meta.lvlMax (meta d)) l); [lia|].
Qed.

(** ** Translations *)

(** C2, amended: when the document has the locale [ja], every key of
    styles, difficulties and flags for which [en[key] && ja[key]] is falsy
    has its "missing translation for <key>" among the returned errors, and
    every difficulty key for which [en["$abbr"][key] && ja["$abbr"][key]] is
    falsy has its "missing abbreviated translation for <key>" there. *)
Theorem missing_translation_reported existsSync d ja k errors :
  d.(i18n).(I18N.locales) !! "ja"%string = Some ja →
  k ∈ allKeys d →
  validateContents existsSync d = Normal errors →
  (translated d.(i18n).(I18N.en) k && translated ja k = false →
   ("missing translation for " +:+ k) ∈ errors)
  ∧ (k ∈ difficultyKeys d →
     abbreviated d.(i18n).(I18N.en) k && abbreviated ja k = false →
     ("missing abbreviated translation for " +:+ k) ∈ errors).
Proof.
  intros Hja Hk Hrun. apply validateContents_Normal in Hrun as [_ ->].
  split.
  - intros Hmissing. apply elem_of_key_errors with ja k; [done..|].
    unfold key_errors. rewrite Hmissing, elem_of_app. left.
    apply list_elem_of_here.
  - intros Hdiff Hmissing. apply elem_of_key_errors with ja k; [done..|].
    unfold key_errors.
    rewrite Hmissing, (proj2 (has_difficultySet d k) Hdiff), elem_of_app.
    right. apply list_elem_of_here.
Qed.

(** ** Exceptions *)

(** [validateContents] returns an error list on every document whose
    abbreviation dictionaries are there where the abbreviation check reads
    them. *)
Lemma validateContents_returns existsSync d :
  abbr_present d →
  ∃ errors, validateContents existsSync d = Normal errors.
Proof.
  intros Hsafe. rewrite validateContents_eq, (abbr_present_faults d Hsafe).
  by eexists.
Qed.

(** ** The abbreviation of a difficulty class *)

(** C10, amended: on every document whose English dictionary holds a
    [$abbr] dictionary, [getDiffAbbr] returns what that dictionary has at
    [diffClass], the abbreviation stored there when there is one; the
    other locales, and the rest of the document, do not matter. *)
Theorem getDiffAbbr_english gameData gameData' diffClass abbr :
  gameData.(i18n).(I18N.en) !! "$abbr"%string = Some (IDict abbr) →
  gameData'.(i18n).(I18N.en) = gameData.(i18n).(I18N.en) →
  getDiffAbbr gameData' diffClass = Normal (get_object abbr diffClass)
  ∧ (∀ s, abbr !! diffClass = Some (IStr s) →
          getDiffAbbr gameData' diffClass = Normal (VString s)).
Proof.
  intros Habbr Hen.
  assert (getDiffAbbr gameData' diffClass = Normal (get_object abbr diffClass))
    as Heval.
  { unfold getDiffAbbr. rewrite Hen, get_abbr_value. unfold abbr_value.
    by rewrite Habbr. }
  split; [exact Heval|].
  intros s Hs. rewrite Heval. unfold get_object. by rewrite Hs.
Qed.

(** ** Default flags *)

Lemma last_char_app s1 s2 :
  s2 ≠ ""%string → last_char (s1 +:+ s2) = last_char s2.
Proof.
  intros Hne. induction s1 as [|c s1 IH]; [done|].
  change (String c s1 +:+ s2) with (String c (s1 +:+ s2)).
  cbn [last_char]. rewrite IH.
  destruct (s1 +:+ s2) eqn:E; [|done].
  destruct s1; [by destruct s2 | discriminate E].
Qed.

Lemma elem_of_concat_map_inv {A} (f : A → list string) (xs : list A) msg :
  msg ∈ concat (map f xs) → ∃ x, x ∈ xs ∧ msg ∈ f x.
Proof.
  intros H. apply list_elem_of_In, in_concat in H as (l & Hl & Hmsg).
  apply in_map_iff in Hl as (x & <- & Hx).
  exists x. split; by apply list_elem_of_In.
Qed.

Ltac differs_at_head :=
  let H := fresh in intros H; vm_compute in H; discriminate H.

Ltac differs_at_tail :=
  let H := fresh in
  intros H; apply (f_equal last_char) in H;
  rewrite last_char_app in H by done; vm_compute in H; discriminate H.

Lemma chart_errors_not_default_flags d song chart msg :
  msg ∈ chart_errors d song chart → msg ≠ default_flags_message.
Proof.
  unfold chart_errors, chart_style_errors, chart_diffClass_errors,
    chart_level_errors.
  rewrite !elem_of_app. intros [H|[H|H]]; revert H.
  - destruct (has _ _); [by intros ?%elem_of_nil|].
    intros ->%list_elem_of_singleton. differs_at_head.
  - destruct (has _ _); [by intros ?%elem_of_nil|].
    intros ->%list_elem_of_singleton. differs_at_head.
  - destruct (truthy_bool _).
    + destruct (Chart.drawGroup chart) as [g|].
      * destruct (g =? 0); [|destruct (_ <? g)];
          [intros ->%list_elem_of_singleton; differs_at_tail ..
          | by intros ?%elem_of_nil].
      * intros ->%list_elem_of_singleton. differs_at_tail.
    + destruct (Chart.lvl chart) as [l|]; [|by intros ?%elem_of_nil].
      destruct (_ <? l); [|by intros ?%elem_of_nil].
      intros ->%list_elem_of_singleton. differs_at_tail.
Qed.

Lemma key_errors_not_default_flags d ja k msg :
  msg ∈ key_errors d ja k → msg ≠ default_flags_message.
Proof.
  unfold key_errors. rewrite elem_of_app. intros [H|H]; revert H.
  - destruct (_ && _); [by intros ?%elem_of_nil|].
    intros ->%list_elem_of_singleton. differs_at_head.
  - destruct (_ && _); [|by intros ?%elem_of_nil].
    intros ->%list_elem_of_singleton. differs_at_head.
Qed.

Lemma expected_errors_not_default_flags existsSync d msg :
  msg ∈ expected_errors existsSync d → msg ≠ default_flags_message.
Proof.
  unfold expected_errors. rewrite !elem_of_app.
  intros [H|[H|[H|[H|[H|[H|H]]]]]]; revert H.
  - unfold level_max_errors. destruct (_ <? _); [|by intros ?%elem_of_nil].
    by intros ->%list_elem_of_singleton.
  - unfold default_style_errors.
    destruct (Defaults.style _) as [style|]; [|by intros ?%elem_of_nil].
    destruct (_ && _); [|by intros ?%elem_of_nil].
    by intros ->%list_elem_of_singleton.
  - unfold default_difficulties_errors.
    destruct (forallb _ _); [by intros ?%elem_of_nil|].
    by intros ->%list_elem_of_singleton.
  - unfold bounds_reversed_errors. destruct (_ <? _); [|by intros ?%elem_of_nil].
    by intros ->%list_elem_of_singleton.
  - unfold bounds_beyond_max_errors. destruct (_ || _); [|by intros ?%elem_of_nil].
    by intros ->%list_elem_of_singleton.
  - unfold translation_errors.
    destruct (I18N.locales _ !! _) as [ja|]; [|by intros ?%elem_of_nil].
    intros (k & _ & Hk)%elem_of_concat_map_inv.
    by apply key_errors_not_default_flags in Hk.
  - intros (song & _ & Hsong)%elem_of_concat_map_inv. revert Hsong.
    unfold song_errors. rewrite elem_of_app. intros [H|H]; revert H.
    + unfold jacket_errors.
      destruct (Song.jacket song) as [jacket|]; [|by intros ?%elem_of_nil].
      destruct (_ && _); [|by intros ?%elem_of_nil].
      intros ->%list_elem_of_singleton. differs_at_head.
    + intros (chart & _ & Hchart)%elem_of_concat_map_inv.
      by apply chart_errors_not_default_flags in Hchart.
Qed.

(** C6: the default flags are never checked against [meta.flags]. Two
    documents that differ in [defaults.flags] only get the same result, and
    no returned list holds the message of the default-flags check. *)
Theorem default_flags_unchecked existsSync d flags' :
  validateContents existsSync (with_default_flags flags' d)
  = validateContents existsSync d
  ∧ ∀ errors,
      validateContents existsSync d = Normal errors →
      default_flags_message ∉ errors.
Proof.
  split; [done|].
  intros errors Hrun Hin. apply validateContents_Normal in Hrun as [_ ->].
  by apply expected_errors_not_default_flags in Hin.
Qed.

(** ** The loop over the documents *)

Lemma for_of_console_error {A} (f : A → string) (xs : list A) st :
  for_of xs (fun x => console_error (f x)) st
  = (Done tt, {| hasError := st.(hasError);
                 console := st.(console) ++ map (fun x => Error (f x)) xs;
                 files := st.(files) |}).
Proof.
  revert st. induction xs as [|x xs IH]; intros st; simpl.
  - unfold mret, Script_ret. rewrite app_nil_r. by destruct st.
  - unfold mbind, Script_bind, console_error. rewrite IH. simpl.
    by rewrite <- app_assoc.
Qed.

(** One turn of the loop, outcome by outcome. *)
Lemma validateFile_eq dataFile songData st :
  validateFile dataFile songData st
  = if (validateJSONSchema songData).(valid) then
      match validateContents (existsSync_on st.(files)) (read songData) with
      | Throw e => (Uncaught e, st)
      | Normal [] =>
          (Done tt, {| hasError := st.(hasError);
                       console := st.(console) ++ [Log (dataFile +:+ " looks good!")];
                       files := st.(files) |})
      | Normal consistencyErrors =>
          (Done tt, {| hasError := true;
                       console := st.(console)
                         ++ map (fun err => Error (" * " +:+ err)) consistencyErrors
                         ++ [Log (newline +:+ dataFile +:+ " has inconsistent data!")];
                       files := st.(files) |})
      end
    else
      (Done tt, {| hasError := true;
                   console := st.(console)
                     ++ map Error (validateJSONSchema songData).(errors)
                     ++ [Log (dataFile +:+ " has issues!")];
                   files := st.(files) |}).
Proof.
  unfold validateFile.
  destruct (valid (validateJSONSchema songData)).
  - unfold mbind, Script_bind, read_files, call. simpl.
    destruct (validateContents _ _) as [[|err errs]|e]; [done| |done].
    cbn [length Nat.eqb negb].
    rewrite (for_of_console_error (fun err => " * " +:+ err)). simpl.
    by rewrite <- app_assoc.
  - unfold mbind, Script_bind.
    rewrite (for_of_console_error (fun error => error)). simpl.
    rewrite <- app_assoc. by rewrite map_ext with (g := Error).
Qed.

(** C3: for a document that fails the schema validation the script prints
    the validator's errors, one line each, and the summary line, sets
    [hasError], and does not call [validateContents]: nothing of what it
    prints or of how it ends depends on the consistency checks. *)
Theorem invalid_document_schema_errors_only dataFile songData st :
  (validateJSONSchema songData).(valid) = false →
  validateFile dataFile songData st
  = (Done tt, {| hasError := true;
                 console := st.(console)
                   ++ map Error (validateJSONSchema songData).(errors)
                   ++ [Log (dataFile +:+ " has issues!")];
                 files := st.(files) |}).
Proof. intros Hinvalid. by rewrite validateFile_eq, Hinvalid. Qed.

(** ** Running the script twice *)

Lemma concat_map_nil_inv {A} (f : A → list string) xs :
  concat (map f xs) = [] → ∀ x, x ∈ xs → f x = [].
Proof.
  induction xs as [|y xs IH]; simpl; intros H x Hx.
  - by apply elem_of_nil in Hx.
  - apply app_eq_nil in H as [Hy Hxs].
    apply elem_of_cons in Hx as [->|Hx]; auto.
Qed.

(** More files on the disk do not make a document without errors have one. *)
Lemma validateContents_more_files (e1 e2 : string → bool) d :
  (∀ path, e1 path = true → e2 path = true) →
  validateContents e1 d = Normal [] → validateContents e2 d = Normal [].
Proof.
  intros Hmore. rewrite !validateContents_eq.
  destruct (faults d); [done|]. intros [= Hnil]. f_equal.
  unfold expected_errors in *.
  repeat (apply app_eq_nil in Hnil as [-> Hnil]). simpl.
  apply concat_map_nil. intros song Hsong.
  pose proof (concat_map_nil_inv _ _ Hnil song Hsong) as Hs.
  unfold song_errors in *. apply app_eq_nil in Hs as [Hjacket ->].
  rewrite app_nil_r. unfold jacket_errors in *.
  destruct (Song.jacket song) as [jacket|]; [|done].
  destruct (String.eqb jacket ""); [done|]. simpl in *.
  destruct (e1 _) eqn:He1; [|done].
  by rewrite (Hmore _ He1).
Qed.

Lemma loop_clean_inv dataFiles st st' :
  for_of dataFiles (fun '(dataFile, songData) => validateFile dataFile songData) st
  = (Done tt, st') →
  st'.(hasError) = false →
  st.(hasError) = false
  ∧ Forall (clean st.(files)) dataFiles
  ∧ st' = {| hasError := false;
             console := st.(console) ++ map looks_good dataFiles;
             files := st.(files) |}.
Proof.
  revert st. induction dataFiles as [|[dataFile songData] rest IH]; intros st; simpl.
  - unfold mret, Script_ret. intros [= <-] Hfalse.
    rewrite app_nil_r. destruct st; simpl in *. by subst.
  - unfold mbind, Script_bind. rewrite validateFile_eq.
    destruct (valid (validateJSONSchema songData)) eqn:Hvalid.
    + destruct (validateContents _ _) as [[|err errs]|e] eqn:Hrun; [| |done].
      * intros Hrest Hfalse.
        destruct (IH _ Hrest Hfalse) as (Hflag & Hclean & ->). simpl in *.
        split; [done|]. split; [by constructor|].
        by rewrite <- app_assoc.
      * intros Hrest Hfalse. by destruct (IH _ Hrest Hfalse) as (? & _).
    + intros Hrest Hfalse. by destruct (IH _ Hrest Hfalse) as (? & _).
Qed.

Lemma loop_of_clean dataFiles st :
  Forall (clean st.(files)) dataFiles →
  for_of dataFiles (fun '(dataFile, songData) => validateFile dataFile songData) st
  = (Done tt, {| hasError := st.(hasError);
                 console := st.(console) ++ map looks_good dataFiles;
                 files := st.(files) |}).
Proof.
  revert st. induction dataFiles as [|[dataFile songData] rest IH]; intros st Hclean; simpl.
  - unfold mret, Script_ret. rewrite app_nil_r. by destruct st.
  - apply Forall_cons in Hclean as [[Hvalid Hrun] Hrest]. simpl in *.
    unfold mbind, Script_bind. rewrite validateFile_eq, Hvalid, Hrun.
    rewrite IH by done. simpl. by rewrite <- app_assoc.
Qed.

Lemma loop_files dataFiles st :
  (for_of dataFiles (fun '(dataFile, songData) => validateFile dataFile songData) st).2.(files)
  = st.(files).
Proof.
  revert st. induction dataFiles as [|[dataFile songData] rest IH]; intros st; simpl.
  - done.
  - unfold mbind, Script_bind. rewrite validateFile_eq.
    destruct (valid (validateJSONSchema songData)).
    + destruct (validateContents _ _) as [[|err errs]|e]; [| |done];
        by rewrite IH.
    + by rewrite IH.
Qed.

Lemma main_eq dataFiles st :
  main dataFiles st
  = match for_of dataFiles
            (fun '(dataFile, songData) => validateFile dataFile songData)
            {| hasError := false; console := st.(console); files := st.(files) |}
    with
    | (Done _, st1) =>
        if st1.(hasError) then (Exited 1, st1)
        else
          match compile "SongData" bannerComment with
          | Normal ts =>
              if writable schemaPath then
                (Done tt,
                 {| hasError := st1.(hasError);
                    console := st1.(console)
                      ++ [Log "Building schema file";
                          Log ("Schema written to " +:+ " " +:+ schemaLocation)];
                    files := <[schemaPath := ts]> st1.(files) |})
              else
                (Uncaught SystemError,
                 {| hasError := st1.(hasError);
                    console := st1.(console) ++ [Log "Building schema file"];
                    files := st1.(files) |})
          | Throw e =>
              (Uncaught e,
               {| hasError := st1.(hasError);
                  console := st1.(console) ++ [Log "Building schema file"];
                  files := st1.(files) |})
          end
    | (Uncaught e, st1) => (Uncaught e, st1)
    | (Exited code, st1) => (Exited code, st1)
    end.
Proof.
  unfold main, mbind, Script_bind, set_hasError. simpl.
  destruct (@for_of Script _ _ _ dataFiles _ _) as [[[]|e|code] st1]; [|done..].
  destruct st1 as [[|] out disk1]; unfold read_hasError; simpl; [done|].
  unfold mret, Script_ret, console_log, call. simpl.
  destruct (compile _ _) as [ts|e]; [|done].
  unfold writeFileSync. simpl.
  destruct (writable schemaPath); simpl; [|done].
  by rewrite <- app_assoc.
Qed.

(** C7: a second run of the script, on the disk the first run leaves and
    with the same documents, ends as the first did, prints the same lines,
    and leaves the disk, the generated file included, as it found it. *)
Theorem run_idempotent dataFiles disk outcome printed disk' :
  run dataFiles disk = (outcome, printed, disk') →
  run dataFiles disk' = (outcome, printed, disk').
Proof.
  unfold run. rewrite !main_eq. simpl.
  pose proof (loop_files dataFiles {| hasError := false; console := []; files := disk |})
    as Hfiles.
  destruct (@for_of Script _ _ _ dataFiles _
              {| hasError := false; console := []; files := disk |})
    as [[[]|e|code] st1] eqn:Hloop; simpl in Hfiles.
  - destruct (hasError st1) eqn:Hflag.
    + intros [= <- <- <-]. rewrite Hfiles, Hloop. simpl. rewrite Hflag. simpl.
      by rewrite Hfiles.
    + destruct (loop_clean_inv _ _ _ Hloop Hflag) as (_ & Hclean & ->). simpl in *.
      destruct (compile _ _) as [ts|e] eqn:Hcompile;
        [destruct (writable schemaPath) eqn:Hwritable|].
      * intros [= <- <- <-].
        rewrite loop_of_clean.
        2:{ simpl. eapply Forall_impl; [exact Hclean|].
            intros [dataFile songData] [Hvalid Hrun]. split; [done|].
            revert Hrun. apply validateContents_more_files.
            intros path. unfold existsSync_on.
            rewrite !bool_decide_eq_true.
            destruct (decide (schemaPath = path)) as [<-|Hne].
            - by rewrite lookup_insert_eq.
            - by rewrite lookup_insert_ne. }
        simpl. by rewrite insert_insert_eq.
      * intros [= <- <- <-]. by rewrite loop_of_clean.
      * intros [= <- <- <-]. by rewrite loop_of_clean.
  - intros [= <- <- <-]. rewrite Hfiles, Hloop. simpl. by rewrite Hfiles.
  - intros [= <- <- <-]. rewrite Hfiles, Hloop. simpl. by rewrite Hfiles.
Qed.

(** ** When [validateContents] throws *)

Lemma difficultyKeys_allKeys d k : k ∈ difficultyKeys d → k ∈ allKeys d.
Proof. unfold allKeys, difficultyKeys. rewrite !elem_of_app. auto. Qed.

Lemma has_abbr_false dict : has_abbr dict = false ↔ dict !! "$abbr"%string = None.
Proof.
  unfold has_abbr. rewrite bool_decide_eq_false, <- eq_None_not_Some. done.
Qed.

(** X1: [validateContents] throws, a TypeError, exactly on the documents
    that have the locale [ja] and a difficulty key for which the English
    dictionary has no [$abbr], or has a truthy abbreviation of the key while
    the Japanese dictionary has no [$abbr]. *)
Theorem validateContents_throws_iff existsSync d :
  validateContents existsSync d = Throw TypeError
  ↔ ∃ ja k,
      d.(i18n).(I18N.locales) !! "ja"%string = Some ja
      ∧ k ∈ difficultyKeys d
      ∧ (d.(i18n).(I18N.en) !! "$abbr"%string = None
         ∨ (abbreviated d.(i18n).(I18N.en) k = true
            ∧ ja !! "$abbr"%string = None)).
Proof.
  rewrite validateContents_eq. unfold faults. split.
  - destruct (I18N.locales (i18n d) !! "ja"%string) as [ja|] eqn:Hja; [|done].
    destruct (existsb _ _) eqn:Hex; [|done]. intros _.
    apply existsb_exists in Hex as (k & _ & Hk). exists ja, k.
    unfold key_faults in Hk.
    apply andb_true_iff in Hk as [Hdiff Hk]. apply has_difficultySet in Hdiff.
    split; [done|]. split; [done|].
    apply orb_true_iff in Hk as [Hk|Hk].
    + left. by apply has_abbr_false, negb_true_iff.
    + right. apply andb_true_iff in Hk as [Hen Hjp].
      split; [done|]. by apply has_abbr_false, negb_true_iff.
  - intros (ja & k & Hja & Hk & Hmissing). rewrite Hja.
    assert (existsb (key_faults d ja) (allKeys d) = true) as ->; [|done].
    apply existsb_exists. exists k.
    split; [by apply list_elem_of_In, difficultyKeys_allKeys|].
    unfold key_faults. rewrite (proj2 (has_difficultySet d k) Hk). simpl.
    destruct Hmissing as [Hen|[Hen Hjp]].
    + by rewrite (proj2 (has_abbr_false _) Hen).
    + rewrite Hen, (proj2 (has_abbr_false _) Hjp). simpl. apply orb_true_r.
Qed.

(** X2: without the locale [ja] the translations are not looked at: the
    result is that of any other document of the same meta, defaults and
    songs that has no [ja] either, and it is a list of errors, never an
    exception. *)
Theorem no_japanese_no_translation_check existsSync d i :
  d.(i18n).(I18N.locales) !! "ja"%string = None →
  i.(I18N.locales) !! "ja"%string = None →
  validateContents existsSync (with_i18n i d) = validateContents existsSync d
  ∧ ∃ errors, validateContents existsSync d = Normal errors.
Proof.
  intros Hd Hi. rewrite !validateContents_eq.
  unfold faults, expected_errors, translation_errors. simpl.
  rewrite Hd, Hi. split; [done|]. by eexists.
Qed.

(** ** The checks of the levels and of the defaults *)

Ltac not_fixed :=
  unfold fixed_messages; rewrite !not_elem_of_cons;
  repeat split; first [ apply not_elem_of_nil | differs_at_head | differs_at_tail ].

Lemma key_errors_not_fixed d ja k msg :
  msg ∈ key_errors d ja k → msg ∉ fixed_messages.
Proof.
  unfold key_errors. rewrite elem_of_app. intros [H|H]; revert H.
  - destruct (_ && _); [by intros ?%elem_of_nil|].
    intros ->%list_elem_of_singleton. not_fixed.
  - destruct (_ && _); [|by intros ?%elem_of_nil].
    intros ->%list_elem_of_singleton. not_fixed.
Qed.

Lemma chart_errors_not_fixed d song chart msg :
  msg ∈ chart_errors d song chart → msg ∉ fixed_messages.
Proof.
  unfold chart_errors, chart_style_errors, chart_diffClass_errors,
    chart_level_errors.
  rewrite !elem_of_app. intros [H|[H|H]]; revert H.
  - destruct (has _ _); [by intros ?%elem_of_nil|].
    intros ->%list_elem_of_singleton. not_fixed.
  - destruct (has _ _); [by intros ?%elem_of_nil|].
    intros ->%list_elem_of_singleton. not_fixed.
  - destruct (truthy_bool _).
    + destruct (Chart.drawGroup chart) as [g|].
      * destruct (g =? 0); [|destruct (_ <? g)];
          [intros ->%list_elem_of_singleton; not_fixed ..
          | by intros ?%elem_of_nil].
      * intros ->%list_elem_of_singleton. not_fixed.
    + destruct (Chart.lvl chart) as [l|]; [|by intros ?%elem_of_nil].
      destruct (_ <? l); [|by intros ?%elem_of_nil].
      intros ->%list_elem_of_singleton. not_fixed.
Qed.

Lemma song_errors_not_fixed existsSync d song msg :
  msg ∈ song_errors existsSync d song → msg ∉ fixed_messages.
Proof.
  unfold song_errors. rewrite elem_of_app. intros [H|H]; revert H.
  - unfold jacket_errors.
    destruct (Song.jacket song) as [jacket|]; [|by intros ?%elem_of_nil].
    destruct (_ && _); [|by intros ?%elem_of_nil].
    intros ->%list_elem_of_singleton. not_fixed.
  - intros (chart & _ & Hchart)%elem_of_concat_map_inv.
    by apply chart_errors_not_fixed in Hchart.
Qed.

(** A message without a name in it is in the result when one of the first
    five checks put it there. *)
Lemma fixed_message_in_header existsSync d msg :
  msg ∈ fixed_messages →
  msg ∈ expected_errors existsSync d
  ↔ msg ∈ level_max_errors d ++ default_style_errors d
          ++ default_difficulties_errors d ++ bounds_reversed_errors d
          ++ bounds_beyond_max_errors d.
Proof.
  intros Hfixed. unfold expected_errors. rewrite !elem_of_app. split.
  - intros [H|[H|[H|[H|[H|[H|H]]]]]]; auto 6.
    + unfold translation_errors in H.
      destruct (I18N.locales _ !! _) as [ja|]; [|by apply elem_of_nil in H].
      apply elem_of_concat_map_inv in H as (k & _ & Hk).
      by apply key_errors_not_fixed in Hk.
    + apply elem_of_concat_map_inv in H as (song & _ & Hsong).
      by apply song_errors_not_fixed in Hsong.
  - intros [H|[H|[H|[H|H]]]]; auto 8.
Qed.

Lemma elem_of_if_singleton (b : bool) (msg x : string) :
  msg ∈ (if b then [x] else []) ↔ b = true ∧ msg = x.
Proof.
  destruct b; rewrite ?list_elem_of_singleton, ?elem_of_nil;
    (split; [by intros ? | by intros [? ?]]).
Qed.

Lemma elem_of_if_nil_singleton (b : bool) (msg x : string) :
  msg ∈ (if b then [] else [x]) ↔ b = false ∧ msg = x.
Proof.
  destruct b; rewrite ?list_elem_of_singleton, ?elem_of_nil;
    (split; [by intros ? | by intros [? ?]]).
Qed.

Lemma default_style_errors_if d :
  default_style_errors d
  = if match d.(defaults).(Defaults.style) with
       | Some style => negb (String.eqb style "") && negb (has (styleSet d) style)
       | None => false
       end
    then ["default style is not listed in meta"%string] else [].
Proof. unfold default_style_errors. by destruct (Defaults.style (defaults d)). Qed.

(** The errors of the first five checks. *)
Lemma header_membership d :
  let header :=
    level_max_errors d ++ default_style_errors d
    ++ default_difficulties_errors d ++ bounds_reversed_errors d
    ++ bounds_beyond_max_errors d in
  ("max level is below 1"%string ∈ header
   ↔ (d.(meta).(Meta.lvlMax) <? 1) = true)
  ∧ ("default style is not listed in meta"%string ∈ header
     ↔ match d.(defaults).(Defaults.style) with
       | Some style => negb (String.eqb style "") && negb (has (styleSet d) style)
       | None => false
       end = true)
  ∧ ("some default difficulties are missing from meta"%string ∈ header
     ↔ forallb (has (difficultySet d)) d.(defaults).(Defaults.difficulties) = false)
  ∧ ("default level bounds are reversed"%string ∈ header
     ↔ (d.(defaults).(Defaults.upperLvlBound)
        <? d.(defaults).(Defaults.lowerLvlBound)) = true)
  ∧ ("default level bounds are beyond max level"%string ∈ header
     ↔ (d.(meta).(Meta.lvlMax) <? d.(defaults).(Defaults.lowerLvlBound))
       || (d.(meta).(Meta.lvlMax) <? d.(defaults).(Defaults.upperLvlBound)) = true).
Proof.
  cbv zeta. rewrite default_style_errors_if.
  unfold level_max_errors, default_difficulties_errors, bounds_reversed_errors,
    bounds_beyond_max_errors.
  rewrite !elem_of_app, !elem_of_if_singleton, !elem_of_if_nil_singleton.
  repeat split;
    lazymatch goal with
    | |- _ ∨ _ → _ =>
        let H := fresh in
        intros H; repeat (destruct H as [H|H]);
        destruct H as [H ?]; first [exact H | discriminate]
    | |- _ => auto 10
    end.
Qed.

Lemma fixed_message_reported existsSync d errors msg :
  validateContents existsSync d = Normal errors →
  msg ∈ fixed_messages →
  msg ∈ errors
  ↔ msg ∈ level_max_errors d ++ default_style_errors d
          ++ default_difficulties_errors d ++ bounds_reversed_errors d
          ++ bounds_beyond_max_errors d.
Proof.
  intros Hrun Hfixed. apply validateContents_Normal in Hrun as [_ ->].
  by apply fixed_message_in_header.
Qed.

(** X3: among the returned errors, "max level is below 1" is there exactly
    when [meta.lvlMax] is below 1. *)
Theorem level_max_reported_iff existsSync d errors :
  validateContents existsSync d = Normal errors →
  "max level is below 1"%string ∈ errors ↔ d.(meta).(Meta.lvlMax) < 1.
Proof.
  intros Hrun.
  rewrite (fixed_message_reported _ _ _ _ Hrun)
    by (unfold fixed_messages; rewrite !elem_of_cons; auto 6).
  rewrite <- Z.ltb_lt. apply (header_membership d).
Qed.

(** X4: "default level bounds are reversed" is returned exactly when the
    lower bound is above the upper one, and "default level bounds are
    beyond max level" exactly when one of the two is above [meta.lvlMax]. *)
Theorem level_bounds_reported_iff existsSync d errors :
  validateContents existsSync d = Normal errors →
  ("default level bounds are reversed"%string ∈ errors
   ↔ d.(defaults).(Defaults.upperLvlBound) < d.(defaults).(Defaults.lowerLvlBound))
  ∧ ("default level bounds are beyond max level"%string ∈ errors
     ↔ d.(meta).(Meta.lvlMax) < d.(defaults).(Defaults.lowerLvlBound)
       ∨ d.(meta).(Meta.lvlMax) < d.(defaults).(Defaults.upperLvlBound)).
Proof.
  intros Hrun.
  rewrite !(fixed_message_reported _ _ _ _ Hrun)
    by (unfold fixed_messages; rewrite !elem_of_cons; auto 6).
  rewrite <- !Z.ltb_lt, <- orb_true_iff.
  split; apply (header_membership d).
Qed.

(** X5: "default style is not listed in meta" is returned exactly when the
    default style is there, is not the empty string, and is no style of
    meta; "some default difficulties are missing from meta" exactly when a
    default difficulty is no difficulty key of meta. *)
Theorem default_membership_reported_iff existsSync d errors :
  validateContents existsSync d = Normal errors →
  ("default style is not listed in meta"%string ∈ errors
   ↔ ∃ style, d.(defaults).(Defaults.style) = Some style
              ∧ style ≠ ""%string
              ∧ style ∉ d.(meta).(Meta.styles))
  ∧ ("some default difficulties are missing from meta"%string ∈ errors
     ↔ ∃ x, x ∈ d.(defaults).(Defaults.difficulties) ∧ x ∉ difficultyKeys d).
Proof.
  intros Hrun.
  rewrite !(fixed_message_reported _ _ _ _ Hrun)
    by (unfold fixed_messages; rewrite !elem_of_cons; auto 6).
  destruct (header_membership d) as (_ & -> & -> & _). split.
  - destruct (Defaults.style (defaults d)) as [style|].
    + rewrite andb_true_iff, !negb_true_iff, String.eqb_neq.
      rewrite <- not_true_iff_false, has_styleSet. split.
      * intros [? ?]. by exists style.
      * by intros (? & [= <-] & ? & ?).
    + split; [done | by intros (? & ? & _)].
  - rewrite <- not_true_iff_false, forallb_forall. split.
    + intros Hnot.
      destruct (decide (Exists (fun x => x ∉ difficultyKeys d)
                          (Defaults.difficulties (defaults d)))) as [Hex|Hall].
      * apply Exists_exists in Hex as (x & Hx & Hx').
        by exists x.
      * destruct Hnot. intros x Hx. apply has_difficultySet.
        destruct (decide (x ∈ difficultyKeys d)) as [|Hno]; [done|].
        destruct Hall. apply Exists_exists. exists x.
        split; [by apply list_elem_of_In | done].
    + intros (x & Hx & Hx') Hall. apply Hx', has_difficultySet, Hall.
      by apply list_elem_of_In.
Qed.

(** ** The checks of the songs and charts *)

(** X6: a jacket that is not the empty string and whose file, in the
    directory of the jackets, does not exist is reported by its name. *)
Theorem missing_jacket_reported existsSync d song jacket errors :
  song ∈ d.(songs) →
  song.(Song.jacket) = Some jacket →
  jacket ≠ ""%string →
  existsSync (join [jacketsDir; jacket]) = false →
  validateContents existsSync d = Normal errors →
  ("missing jacket image " +:+ jacket) ∈ errors.
Proof.
  intros Hsong Hjacket Hne Hmissing Hrun.
  apply validateContents_Normal in Hrun as [_ ->].
  apply elem_of_song_errors with song; [done|].
  unfold song_errors, jacket_errors. rewrite Hjacket, Hmissing.
  rewrite (proj2 (String.eqb_neq _ _) Hne). simpl. apply list_elem_of_here.
Qed.

(** X7: a chart above the maximum level is reported with the name of its
    song: by its [lvl] where draw groups are not in use, and by its
    [drawGroup], if that is not 0, where they are. *)
Theorem level_above_max_reported existsSync d song chart errors :
  song ∈ d.(songs) →
  chart ∈ song.(Song.charts) →
  validateContents existsSync d = Normal errors →
  (truthy_bool d.(meta).(Meta.usesDrawGroups) = false →
   (∃ l, chart.(Chart.lvl) = Some l ∧ d.(meta).(Meta.lvlMax) < l) →
   (song.(Song.name) +:+ " has chart above level max") ∈ errors)
  ∧ (truthy_bool d.(meta).(Meta.usesDrawGroups) = true →
     (∃ g, chart.(Chart.drawGroup) = Some g ∧ g ≠ 0 ∧ d.(meta).(Meta.lvlMax) < g) →
     (song.(Song.name) +:+ " has draw group above max") ∈ errors).
Proof.
  intros Hsong Hchart Hrun. apply validateContents_Normal in Hrun as [_ ->].
  split.
  - intros Huses (l & Hl & Habove).
    apply elem_of_chart_errors with song chart; [done..|].
    unfold chart_errors, chart_level_errors. rewrite Huses, Hl.
    rewrite (proj2 (Z.ltb_lt _ _) Habove), !elem_of_app.
    do 2 right. apply list_elem_of_here.
  - intros Huses (g & Hg & Hnz & Habove).
    apply elem_of_chart_errors with song chart; [done..|].
    unfold chart_errors, chart_level_errors. rewrite Huses, Hg.
    rewrite (proj2 (Z.eqb_neq _ _) Hnz), (proj2 (Z.ltb_lt _ _) Habove).
    rewrite !elem_of_app. do 2 right. apply list_elem_of_here.
Qed.

(** X8: a chart whose style is no style of meta, or whose diffClass is no
    difficulty key of meta, is reported with the value between double
    quotes and the name of its song. *)
Theorem unrecognized_chart_reported existsSync d song chart errors :
  song ∈ d.(songs) →
  chart ∈ song.(Song.charts) →
  validateContents existsSync d = Normal errors →
  (chart.(Chart.style) ∉ d.(meta).(Meta.styles) →
   ("unrecognized style " +:+ dquote +:+ chart.(Chart.style) +:+ dquote
    +:+ " used by " +:+ song.(Song.name)) ∈ errors)
  ∧ (chart.(Chart.diffClass) ∉ difficultyKeys d →
     ("unrecognized diffClass " +:+ dquote +:+ chart.(Chart.diffClass) +:+ dquote
      +:+ " used by " +:+ song.(Song.name)) ∈ errors).
Proof.
  intros Hsong Hchart Hrun. apply validateContents_Normal in Hrun as [_ ->].
  split; intros Hnot; apply elem_of_chart_errors with song chart; try done;
    unfold chart_errors, chart_style_errors, chart_diffClass_errors;
    rewrite !elem_of_app.
  - left. destruct (has _ _) eqn:Hhas; [|apply list_elem_of_here].
    by apply has_styleSet in Hhas.
  - right. left. destruct (has _ (Chart.diffClass _)) eqn:Hhas;
      [|apply list_elem_of_here].
    by apply has_difficultySet in Hhas.
Qed.

(** ** Documents without errors *)

Lemma expected_errors_nil existsSync d :
  expected_errors existsSync d = [] →
  translation_errors d = []
  ∧ ∀ song, song ∈ d.(songs) →
      jacket_errors existsSync song = []
      ∧ ∀ chart, chart ∈ song.(Song.charts) → chart_errors d song chart = [].
Proof.
  unfold expected_errors. intros Hnil.
  do 5 (apply app_eq_nil in Hnil as [_ Hnil]).
  apply app_eq_nil in Hnil as [Htranslation Hsongs].
  split; [done|]. intros song Hsong.
  pose proof (concat_map_nil_inv _ _ Hsongs song Hsong) as Hs.
  unfold song_errors in Hs. apply app_eq_nil in Hs as [Hjacket Hcharts].
  split; [done|]. intros chart Hchart.
  exact (concat_map_nil_inv _ _ Hcharts chart Hchart).
Qed.

(** X9: in a document for which the empty list is returned, every jacket
    that is not the empty string exists, every chart has a style and a
    diffClass of meta, and every chart has, where draw groups are in use, a
    draw group that is not 0 and not above [lvlMax], and otherwise no [lvl]
    above [lvlMax]. *)
Theorem no_errors_songs_sound existsSync d song :
  validateContents existsSync d = Normal [] →
  song ∈ d.(songs) →
  (∀ jacket, song.(Song.jacket) = Some jacket → jacket ≠ ""%string →
     existsSync (join [jacketsDir; jacket]) = true)
  ∧ ∀ chart, chart ∈ song.(Song.charts) →
      chart.(Chart.style) ∈ d.(meta).(Meta.styles)
      ∧ chart.(Chart.diffClass) ∈ difficultyKeys d
      ∧ if truthy_bool d.(meta).(Meta.usesDrawGroups)
        then ∃ g, chart.(Chart.drawGroup) = Some g
                  ∧ g ≠ 0 ∧ g ≤ d.(meta).(Meta.lvlMax)
        else ∀ l, chart.(Chart.lvl) = Some l → l ≤ d.(meta).(Meta.lvlMax).
Proof.
  intros Hrun Hsong. apply validateContents_Normal in Hrun as [_ Hnil].
  symmetry in Hnil. apply expected_errors_nil in Hnil as [_ Hsongs].
  destruct (Hsongs song Hsong) as [Hjacket Hcharts]. split.
  - intros jacket Hsome Hne. unfold jacket_errors in Hjacket.
    rewrite Hsome, (proj2 (String.eqb_neq _ _) Hne) in Hjacket. simpl in Hjacket.
    by destruct (existsSync _).
  - intros chart Hchart. specialize (Hcharts chart Hchart).
    unfold chart_errors in Hcharts.
    apply app_eq_nil in Hcharts as [Hstyle Hcharts].
    apply app_eq_nil in Hcharts as [Hdiff Hlevel].
    unfold chart_style_errors in Hstyle. unfold chart_diffClass_errors in Hdiff.
    unfold chart_level_errors in Hlevel.
    destruct (has (styleSet d) _) eqn:Hs; [|done].
    destruct (has (difficultySet d) _) eqn:Hd; [|done].
    split; [by apply has_styleSet|]. split; [by apply has_difficultySet|].
    destruct (truthy_bool _).
    + destruct (Chart.drawGroup chart) as [g|]; [|done]. exists g.
      destruct (Z.eqb_spec g 0); [done|].
      destruct (Z.ltb_spec (Meta.lvlMax (meta d)) g); [done|]. by repeat split.
    + intros l Hl. rewrite Hl in Hlevel.
      by destruct (Z.ltb_spec (Meta.lvlMax (meta d)) l).
Qed.

(** X10: in a document with the locale [ja] for which the empty list is
    returned, every key of styles, difficulties and flags reads truthy in
    the English and in the Japanese dictionary, and for every difficulty key
    [getDiffAbbr] returns, without exception, a truthy value. *)
Theorem no_errors_translations_sound existsSync d ja k :
  validateContents existsSync d = Normal [] →
  d.(i18n).(I18N.locales) !! "ja"%string = Some ja →
  k ∈ allKeys d →
  translated d.(i18n).(I18N.en) k = true
  ∧ translated ja k = true
  ∧ (k ∈ difficultyKeys d →
     abbreviated ja k = true
     ∧ ∃ v, getDiffAbbr d k = Normal v ∧ truthy v = true).
Proof.
  intros Hrun Hja Hk. apply validateContents_Normal in Hrun as [_ Hnil].
  symmetry in Hnil. apply expected_errors_nil in Hnil as [Htranslation _].
  unfold translation_errors in Htranslation. rewrite Hja in Htranslation.
  pose proof (concat_map_nil_inv _ _ Htranslation k Hk) as Hkey.
  unfold key_errors in Hkey. apply app_eq_nil in Hkey as [Ht Ha].
  destruct (translated (I18N.en (i18n d)) k); [|done].
  destruct (translated ja k); [|done].
  split; [done|]. split; [done|]. intros Hdiff.
  rewrite (proj2 (has_difficultySet d k) Hdiff) in Ha. simpl in Ha.
  unfold getDiffAbbr. rewrite get_abbr_value. unfold abbreviated in *.
  destruct (abbr_value (I18N.en (i18n d)) k) as [v|]; [|done].
  destruct (truthy v) eqn:Hv; [|done]. simpl in Ha.
  destruct (abbr_value ja k) as [w|]; [|done].
  destruct (truthy w); [|done]. split; [done|]. by exists v.
Qed.

(** ** What the checks do not read *)

Lemma expected_errors_map_charts existsSync f d :
  (∀ song chart,
     chart_errors (map_charts f d) song (f chart) = chart_errors d song chart) →
  expected_errors existsSync (map_charts f d) = expected_errors existsSync d.
Proof.
  intros Hchart. unfold expected_errors.
  change (level_max_errors (map_charts f d)) with (level_max_errors d).
  change (default_style_errors (map_charts f d)) with (default_style_errors d).
  change (default_difficulties_errors (map_charts f d))
    with (default_difficulties_errors d).
  change (bounds_reversed_errors (map_charts f d)) with (bounds_reversed_errors d).
  change (bounds_beyond_max_errors (map_charts f d))
    with (bounds_beyond_max_errors d).
  change (translation_errors (map_charts f d)) with (translation_errors d).
  do 6 f_equal. simpl. rewrite map_map. f_equal. apply map_ext. intros song.
  unfold song_errors. simpl. f_equal. rewrite map_map. f_equal.
  apply map_ext. intros chart.
  rewrite <- (Hchart song chart). done.
Qed.

(** X11: where draw groups are in use the level of a chart is not looked
    at: whatever the levels are changed to, the result is the same. *)
Theorem lvl_unread_with_drawGroups existsSync d lvl :
  truthy_bool d.(meta).(Meta.usesDrawGroups) = true →
  validateContents existsSync (map_charts (set_lvl lvl) d)
  = validateContents existsSync d.
Proof.
  intros Huses. rewrite !validateContents_eq.
  change (faults (map_charts (set_lvl lvl) d)) with (faults d).
  rewrite expected_errors_map_charts; [done|].
  intros song chart. unfold chart_errors, chart_level_errors. simpl.
  by rewrite Huses.
Qed.

(** X12: where draw groups are not in use the draw group of a chart is not
    looked at: whatever the draw groups are changed to, the result is the
    same. *)
Theorem drawGroup_unread_without_drawGroups existsSync d drawGroup :
  truthy_bool d.(meta).(Meta.usesDrawGroups) = false →
  validateContents existsSync (map_charts (set_drawGroup drawGroup) d)
  = validateContents existsSync d.
Proof.
  intros Huses. rewrite !validateContents_eq.
  change (faults (map_charts (set_drawGroup drawGroup) d)) with (faults d).
  rewrite expected_errors_map_charts; [done|].
  intros song chart. unfold chart_errors, chart_level_errors. simpl.
  by rewrite Huses.
Qed.

Lemma sublist_concat_map {A} (f g : A → list string) xs :
  (∀ x, f x `sublist_of` g x) →
  concat (map f xs) `sublist_of` concat (map g xs).
Proof.
  intros Hfg. induction xs as [|x xs IH]; simpl; [done|].
  by apply sublist_app.
Qed.

(** X13: with more files on the disk the result is the one with fewer, some
    of the missing-jacket errors left out and the order kept; no error is
    added. *)
Theorem more_files_fewer_errors (e1 e2 : string → bool) d errors1 :
  (∀ path, e1 path = true → e2 path = true) →
  validateContents e1 d = Normal errors1 →
  ∃ errors2,
    validateContents e2 d = Normal errors2 ∧ errors2 `sublist_of` errors1.
Proof.
  intros Hmore Hrun. apply validateContents_Normal in Hrun as [Hfaults ->].
  exists (expected_errors e2 d). rewrite validateContents_eq, Hfaults.
  split; [done|]. unfold expected_errors.
  do 6 (apply sublist_app; [done|]).
  apply sublist_concat_map. intros song. unfold song_errors.
  apply sublist_app; [|done]. unfold jacket_errors.
  destruct (Song.jacket song) as [jacket|]; [|done].
  destruct (String.eqb jacket ""); simpl; [done|].
  destruct (e1 _) eqn:He1; simpl.
  - by rewrite (Hmore _ He1).
  - destruct (e2 _); simpl; [apply sublist_nil_l | done].
Qed.

(** ** The paths of the translations *)

(** X18: two meta strings are looked up by the same path, whatever the
    translation function, only for the same key, and the abbreviation of a
    difficulty class is looked up by the path of the meta string of a key
    exactly when that key is ["$abbr." + diffClassKey]. *)
Theorem translation_paths t0 key key' diffClassKey :
  ((∀ t, getMetaString t key = getMetaString t key') ↔ key = key')
  ∧ ((∀ t, getDiffClass t diffClassKey = getMetaString t key)
     ↔ key = "$abbr." +:+ diffClassKey)
  ∧ getDiffClass t0 diffClassKey = getMetaString t0 ("$abbr." +:+ diffClassKey).
Proof.
  split; [|split; [|reflexivity]].
  - split; [|by intros ->]. intros Hsame.
    specialize (Hsame (fun path => path)). unfold getMetaString in Hsame.
    by apply (inj (String.app "meta.")) in Hsame.
  - split; [|by intros ->]. intros Hsame.
    specialize (Hsame (fun path => path)).
    unfold getMetaString, getDiffClass in Hsame.
    change ("meta.$abbr." +:+ diffClassKey)
      with ("meta." +:+ "$abbr." +:+ diffClassKey) in Hsame.
    by apply (inj (String.app "meta.")) in Hsame.
Qed.

(** ** The script on several documents *)

Lemma for_of_app {A} (xs ys : list A) (body : A → Script unit) st :
  for_of (xs ++ ys) body st
  = match for_of xs body st with
    | (Done _, st') => for_of ys body st'
    | (Uncaught e, st') => (Uncaught e, st')
    | (Exited code, st') => (Exited code, st')
    end.
Proof.
  revert st. induction xs as [|x xs IH]; intros st; simpl; [done|].
  unfold mbind, Script_bind.
  destruct (body x st) as [[[]|e|code] st1]; [|done..]. apply IH.
Qed.

(** The loop on documents none of which makes [validateContents] throw:
    every document is reported, and [hasError] is set if one fails. *)
Lemma loop_completes dataFiles st :
  Forall (completes st.(files)) dataFiles →
  for_of dataFiles (fun '(dataFile, songData) => validateFile dataFile songData) st
  = (Done tt,
     {| hasError := st.(hasError) || negb (forallb (passes st.(files)) dataFiles);
        console := st.(console) ++ concat (map (report st.(files)) dataFiles);
        files := st.(files) |}).
Proof.
  revert st.
  induction dataFiles as [|[dataFile songData] rest IH]; intros st Hall; simpl.
  - unfold mret, Script_ret. rewrite app_nil_r, orb_false_r. by destruct st.
  - apply Forall_cons in Hall as [Hfirst Hrest].
    unfold completes in Hfirst. simpl in Hfirst.
    unfold mbind, Script_bind. rewrite validateFile_eq.
    cbn [forallb map concat]. unfold passes at 1. unfold report at 1.
    cbn [fst snd].
    destruct (valid (validateJSONSchema songData)).
    + destruct (Hfirst eq_refl) as [errors Hrun]. rewrite Hrun.
      destruct errors as [|err errs]; rewrite IH by done;
        cbn [hasError console files andb negb];
        rewrite ?orb_true_r; by rewrite <- !app_assoc.
    + rewrite IH by done. cbn [hasError console files andb negb].
      rewrite ?orb_true_r. by rewrite <- !app_assoc.
Qed.

Lemma passes_completes disk dataFiles :
  forallb (passes disk) dataFiles = true → Forall (completes disk) dataFiles.
Proof.
  rewrite forallb_forall, Forall_forall. intros Hall entry Hentry _.
  specialize (Hall entry (proj1 (list_elem_of_In _ _) Hentry)).
  unfold passes in Hall. apply andb_true_iff in Hall as [_ Hrun].
  destruct (validateContents _ _) as [[|err errs]|e]; [|done..]. by eexists.
Qed.

(** X14: when no document makes [validateContents] throw and one of them
    fails a validation, the script still reports every document, in their
    order, then exits with the code 1, and writes no file. *)
Theorem run_reports_failures dataFiles disk :
  Forall (completes disk) dataFiles →
  forallb (passes disk) dataFiles = false →
  run dataFiles disk
  = (Exited 1, concat (map (report disk) dataFiles), disk).
Proof.
  intros Hall Hfails. unfold run. rewrite main_eq. simpl.
  rewrite loop_completes by done. simpl. by rewrite Hfails.
Qed.

(** X15: when every document passes both validations the script prints one
    "looks good!" line for each, then "Building schema file", and generates
    the types. When the path of the schema can be written it stores them
    there and prints its last line. When the write fails, or the generator
    throws, the script ends with that exception: the last line is not
    printed and the disk is as it was. *)
Theorem run_generates dataFiles disk :
  forallb (passes disk) dataFiles = true →
  run dataFiles disk
  = match compile "SongData" bannerComment with
    | Normal ts =>
        if writable schemaPath then
          (Done tt,
           map looks_good dataFiles
           ++ [Log "Building schema file";
               Log ("Schema written to " +:+ " " +:+ schemaLocation)],
           <[schemaPath := ts]> disk)
        else
          (Uncaught SystemError,
           map looks_good dataFiles ++ [Log "Building schema file"], disk)
    | Throw e =>
        (Uncaught e, map looks_good dataFiles ++ [Log "Building schema file"], disk)
    end.
Proof.
  intros Hpass. unfold run. rewrite main_eq. simpl.
  rewrite loop_completes by (by apply passes_completes). simpl.
  rewrite Hpass. simpl.
  assert (concat (map (report disk) dataFiles) = map looks_good dataFiles) as ->.
  { induction dataFiles as [|[dataFile songData] rest IH]; simpl in *; [done|].
    apply andb_true_iff in Hpass as [Hfirst Hrest]. rewrite IH by done.
    unfold passes, report, looks_good in *. simpl in *.
    destruct (valid (validateJSONSchema songData)); [|done].
    by destruct (validateContents _ _) as [[|err errs]|e]. }
  destruct (compile _ _); [|done]. by destruct (writable schemaPath).
Qed.

(** X16: when a document that conforms to the schema makes
    [validateContents] throw, the script ends there with the exception:
    the documents before it are reported, those after it are not looked at,
    and no file is written. *)
Theorem run_stops_at_exception before dataFile songData after disk e :
  Forall (completes disk) before →
  (validateJSONSchema songData).(valid) = true →
  validateContents (existsSync_on disk) (read songData) = Throw e →
  run (before ++ (dataFile, songData) :: after) disk
  = (Uncaught e, concat (map (report disk) before), disk).
Proof.
  intros Hbefore Hvalid Hthrow. unfold run. rewrite main_eq. simpl.
  rewrite for_of_app, loop_completes by done. simpl.
  unfold mbind, Script_bind. rewrite validateFile_eq. simpl.
  by rewrite Hvalid, Hthrow.
Qed.

(** X17: the script writes at the path of the schema only: every other
    path of the disk is as before, and so is that one unless the script
    ends normally. *)
Theorem run_writes_schema_only dataFiles disk outcome printed disk' :
  run dataFiles disk = (outcome, printed, disk') →
  (∀ path, path ≠ schemaPath → disk' !! path = disk !! path)
  ∧ (outcome ≠ Done tt → disk' = disk).
Proof.
  unfold run. rewrite main_eq. simpl.
  pose proof (loop_files dataFiles {| hasError := false; console := []; files := disk |})
    as Hfiles.
  destruct (@for_of Script _ _ _ dataFiles _
              {| hasError := false; console := []; files := disk |})
    as [[[]|e|code] st1]; simpl in Hfiles.
  - destruct (hasError st1).
    + intros [= <- <- <-]. by rewrite Hfiles.
    + destruct (compile _ _) as [ts|e]; [destruct (writable schemaPath)|];
        intros [= <- <- <-]; simpl; rewrite Hfiles; [|done..].
      split; [|done]. intros path Hne. by rewrite lookup_insert_ne.
  - intros [= <- <- <-]. by rewrite Hfiles.
  - intros [= <- <- <-]. by rewrite Hfiles.
Qed.

(** ** What the result depends on *)

(** X19: of the disk only the jackets of the songs are looked at: two
    disks that agree on the path of every jacket give the same result. *)
Theorem only_jacket_paths_read (e1 e2 : string → bool) d :
  (∀ song jacket, song ∈ d.(songs) → song.(Song.jacket) = Some jacket →
     e1 (join [jacketsDir; jacket]) = e2 (join [jacketsDir; jacket])) →
  validateContents e1 d = validateContents e2 d.
Proof.
  intros Hagree. rewrite !validateContents_eq. destruct (faults d); [done|].
  f_equal. unfold expected_errors. do 6 f_equal.
  assert (∀ songs', (∀ song, song ∈ songs' → song ∈ d.(songs)) →
            map (song_errors e1 d) songs' = map (song_errors e2 d) songs')
    as Hmap; [|f_equal; by apply Hmap].
  induction songs' as [|song rest IH]; intros Hsub; simpl; [done|].
  rewrite IH by (intros ? ?; apply Hsub; by apply list_elem_of_further).
  f_equal. unfold song_errors, jacket_errors. f_equal.
  destruct (Song.jacket song) as [jacket|] eqn:Hjacket; [|done].
  by rewrite (Hagree song jacket (Hsub song (list_elem_of_here _ _)) Hjacket).
Qed.

(** X20: of [i18n] only the English dictionary and the one of [ja] are
    looked at: the other locales may be anything. *)
Theorem other_locales_unread existsSync d i :
  i.(I18N.en) = d.(i18n).(I18N.en) →
  i.(I18N.locales) !! "ja"%string = d.(i18n).(I18N.locales) !! "ja"%string →
  validateContents existsSync (with_i18n i d) = validateContents existsSync d.
Proof.
  intros Hen Hja. rewrite !validateContents_eq.
  unfold faults, expected_errors, translation_errors, key_faults, key_errors.
  simpl. by rewrite Hen, Hja.
Qed.

(** X21: a key that is the name of a property every object inherits, and
    that neither the English nor the Japanese dictionary holds, is not
    reported as untranslated: reading it gives the inherited property. *)
Theorem inherited_key_never_untranslated existsSync d ja k errors :
  k ∈ Object_prototype →
  d.(i18n).(I18N.locales) !! "ja"%string = Some ja →
  d.(i18n).(I18N.en) !! k = None →
  ja !! k = None →
  validateContents existsSync d = Normal errors →
  ("missing translation for " +:+ k) ∉ errors.
Proof.
  intros Hk Hja Hen Hjp Hrun Hin.
  apply validateContents_Normal in Hrun as [_ ->].
  assert (translated d.(i18n).(I18N.en) k && translated ja k = true) as Hread.
  { unfold translated, get_object. rewrite Hen, Hjp.
    by rewrite (bool_decide_eq_true_2 _ Hk). }
  unfold expected_errors in Hin. rewrite !elem_of_app in Hin.
  destruct Hin as [H|[H|[H|[H|[H|[H|H]]]]]].
  - revert H. unfold level_max_errors. destruct (_ <? _);
      rewrite ?list_elem_of_singleton, ?elem_of_nil; [differs_at_head|done].
  - revert H. unfold default_style_errors.
    destruct (Defaults.style _) as [style|]; [destruct (negb _ && negb _)|];
      rewrite ?list_elem_of_singleton, ?elem_of_nil; [differs_at_head|done..].
  - revert H. unfold default_difficulties_errors. destruct (forallb _ _);
      rewrite ?list_elem_of_singleton, ?elem_of_nil; [done|differs_at_head].
  - revert H. unfold bounds_reversed_errors. destruct (_ <? _);
      rewrite ?list_elem_of_singleton, ?elem_of_nil; [differs_at_head|done].
  - revert H. unfold bounds_beyond_max_errors. destruct (_ || _);
      rewrite ?list_elem_of_singleton, ?elem_of_nil; [differs_at_head|done].
  - unfold translation_errors in H. rewrite Hja in H.
    apply elem_of_concat_map_inv in H as (k' & _ & Hk').
    unfold key_errors in Hk'. rewrite elem_of_app in Hk'.
    destruct Hk' as [H|H]; revert H.
    + destruct (translated _ k' && translated ja k') eqn:Hread';
        rewrite ?list_elem_of_singleton, ?elem_of_nil; [done|].
      intros Hsame. apply (inj (String.app _)) in Hsame as ->. congruence.
    + destruct (has _ _ && _);
        rewrite ?list_elem_of_singleton, ?elem_of_nil; [differs_at_head|done].
  - apply elem_of_concat_map_inv in H as (song & _ & Hsong).
    unfold song_errors in Hsong. rewrite elem_of_app in Hsong.
    destruct Hsong as [H|H]; revert H.
    + unfold jacket_errors.
      destruct (Song.jacket song) as [jacket|]; [destruct (negb _ && negb _)|];
        rewrite ?list_elem_of_singleton, ?elem_of_nil; [differs_at_head|done..].
    + intros (chart & _ & Hchart)%elem_of_concat_map_inv. revert Hchart.
      unfold chart_errors, chart_style_errors, chart_diffClass_errors,
        chart_level_errors.
      rewrite !elem_of_app. intros [H|[H|H]]; revert H.
      * destruct (has _ _);
          rewrite ?list_elem_of_singleton, ?elem_of_nil; [done|differs_at_head].
      * destruct (has _ _);
          rewrite ?list_elem_of_singleton, ?elem_of_nil; [done|differs_at_head].
      * assert (∀ name suffix,
                  suffix ≠ ""%string →
                  last_char ("missing translation for " +:+ k) ≠ last_char suffix →
                  "missing translation for " +:+ k ≠ name +:+ suffix) as Htail.
        { intros name suffix Hsuffix Hne Hsame. apply Hne.
          by rewrite Hsame, last_char_app. }
        assert (∀ suffix,
                  suffix ∈ [ " is missing a draw group"%string;
                             " has draw group above max"%string;
                             " has chart above level max"%string ] →
                  suffix ≠ ""%string
                  ∧ last_char ("missing translation for " +:+ k) ≠ last_char suffix)
          as Hends.
        { intros suffix Hsuffix. unfold Object_prototype in Hk.
          repeat (apply elem_of_cons in Hsuffix as [->|Hsuffix]);
            [..|by apply elem_of_nil in Hsuffix];
            (split; [done|]);
            repeat (apply elem_of_cons in Hk as [->|Hk]);
            first [ by apply elem_of_nil in Hk | vm_compute; discriminate ]. }
        destruct (truthy_bool _).
        -- destruct (Chart.drawGroup chart) as [g|];
             [destruct (g =? 0); [|destruct (_ <? g)]|];
             rewrite ?list_elem_of_singleton, ?elem_of_nil; try done;
             apply Htail; apply Hends; rewrite !elem_of_cons; auto.
        -- destruct (Chart.lvl chart) as [l|]; [destruct (_ <? l)|];
             rewrite ?list_elem_of_singleton, ?elem_of_nil; try done;
             apply Htail; apply Hends; rewrite !elem_of_cons; auto.
Qed.

End Runtime.

(** ** The claims on the sample documents *)

Abbreviation sample_validate :=
  (validateContents Sample.primitive_get Sample.join Sample.resolve Sample.dirname
     (existsSync_on Sample.disk)).

Abbreviation sample_consistent :=
  (consistent Sample.join Sample.resolve Sample.dirname (existsSync_on Sample.disk)).

Ltac each_member H :=
  repeat (apply elem_of_cons in H as [->|H]);
  [ .. | by apply elem_of_nil in H ].

(** The sample catalog satisfies the invariants whatever draw group, up to
    the maximum level, its chart has. *)
Lemma sample_catalog_consistent (g : Z) :
  g ≤ 19 →
  sample_consistent
    (Sample.catalog Sample.english {[ "ja"%string := Sample.japanese ]} (Some g)).
Proof.
  intros Hg. constructor.
  - simpl. lia.
  - intros style [= <-]. simpl. constructor.
  - intros x Hx. simpl in Hx. each_member Hx. vm_compute. constructor.
  - simpl. lia.
  - intros tag dict Hdict k Hk. simpl in Hdict.
    apply lookup_singleton_Some in Hdict as [<- <-].
    vm_compute in Hk. each_member Hk; split; vm_compute; reflexivity.
  - intros tag dict Hdict k Hk. simpl in Hdict.
    apply lookup_singleton_Some in Hdict as [<- <-].
    vm_compute in Hk. each_member Hk; split; vm_compute; reflexivity.
  - intros song jacket Hsong Hjacket. simpl in Hsong. each_member Hsong.
    simpl in Hjacket. injection Hjacket as <-. vm_compute. reflexivity.
  - intros song chart Hsong Hchart. simpl in Hsong. each_member Hsong.
    simpl in Hchart. each_member Hchart. split; vm_compute; constructor.
  - intros song chart Hsong Hchart. simpl in Hsong. each_member Hsong.
    simpl in Hchart. each_member Hchart. simpl. exists g. split; [reflexivity|lia].
Qed.

(** C1 as stated fails: the document satisfies every invariant, its draw
    group 0 being present and not above the maximum level, and gets an
    error. *)
Lemma consistent_zero_group_has_error :
  sample_consistent Sample.zero_group
  ∧ sample_validate Sample.zero_group = Normal ["Song A is missing a draw group"%string].
Proof.
  split; [apply sample_catalog_consistent; lia | vm_compute; reflexivity].
Qed.

(** C1, amended, on [Sample.good], whose chart has the draw group 12. *)
Lemma consistent_no_errors_witness :
  sample_consistent Sample.good
  ∧ drawGroups_nonzero Sample.good
  ∧ sample_validate Sample.good = Normal [].
Proof.
  assert (sample_consistent Sample.good) as Hc
    by (apply sample_catalog_consistent; lia).
  assert (drawGroups_nonzero Sample.good) as Hnz.
  { intros _ song chart Hsong Hchart. simpl in Hsong. each_member Hsong.
    simpl in Hchart. each_member Hchart. simpl. discriminate. }
  split; [exact Hc|]. split; [exact Hnz|].
  exact (consistent_no_errors Sample.primitive_get Sample.join Sample.resolve
           Sample.dirname (existsSync_on Sample.disk) Sample.good Hc Hnz).
Defined.

(** C8 on [Sample.messy], which fails a check of each kind. *)
Lemma validateContents_order_witness :
  sample_validate Sample.messy = Normal Sample.messy_errors
  ∧ Sample.messy_errors
    = level_max_errors Sample.messy
      ++ default_style_errors Sample.messy
      ++ default_difficulties_errors Sample.messy
      ++ bounds_reversed_errors Sample.messy
      ++ bounds_beyond_max_errors Sample.messy
      ++ translation_errors Sample.primitive_get Sample.messy
      ++ concat (map (fun song =>
           jacket_errors Sample.join Sample.resolve Sample.dirname
             (existsSync_on Sample.disk) song
           ++ concat (map (fun chart =>
                chart_style_errors Sample.messy song chart
                ++ chart_diffClass_errors Sample.messy song chart
                ++ chart_level_errors Sample.messy song chart) song.(Song.charts)))
           Sample.messy.(songs)).
Proof.
  assert (sample_validate Sample.messy = Normal Sample.messy_errors) as Hrun
    by (vm_compute; reflexivity).
  split; [exact Hrun|].
  exact (validateContents_order Sample.primitive_get Sample.join Sample.resolve
           Sample.dirname (existsSync_on Sample.disk) Sample.messy
           Sample.messy_errors Hrun).
Defined.

(** C4 on [Sample.no_group]. *)
Lemma missing_drawGroup_reported_witness :
  sample_validate Sample.no_group = Normal ["Song A is missing a draw group"%string]
  ∧ "Song A is missing a draw group"%string
    ∈ ["Song A is missing a draw group"%string].
Proof.
  assert (sample_validate Sample.no_group
          = Normal ["Song A is missing a draw group"%string]) as Hrun
    by (vm_compute; reflexivity).
  split; [exact Hrun|].
  apply (missing_drawGroup_reported Sample.primitive_get Sample.join Sample.resolve
           Sample.dirname (existsSync_on Sample.disk) Sample.no_group
           (Sample.song None) (Sample.chart None));
    [reflexivity | simpl; constructor | simpl; constructor | reflexivity | exact Hrun].
Defined.

(** C9 on [Sample.zero_group]. *)
Lemma zero_drawGroup_reported_witness :
  sample_validate Sample.zero_group = Normal ["Song A is missing a draw group"%string]
  ∧ "Song A is missing a draw group"%string
    ∈ ["Song A is missing a draw group"%string].
Proof.
  assert (sample_validate Sample.zero_group
          = Normal ["Song A is missing a draw group"%string]) as Hrun
    by (vm_compute; reflexivity).
  split; [exact Hrun|].
  apply (zero_drawGroup_reported Sample.primitive_get Sample.join Sample.resolve
           Sample.dirname (existsSync_on Sample.disk) Sample.zero_group
           (Sample.song (Some 0)) (Sample.chart (Some 0)));
    [reflexivity | simpl; constructor | simpl; constructor | reflexivity | exact Hrun].
Defined.

(** C2 as stated fails: the document has a locale other than English, the
    keys have no translation in it, and no error is returned. *)
Lemma korean_untranslated_unreported :
  I18N.locales (i18n Sample.korean) !! "ko"%string = Some ∅
  ∧ "single"%string ∈ allKeys Sample.korean
  ∧ has_translation ∅ "single" = false
  ∧ sample_validate Sample.korean = Normal [].
Proof.
  split; [reflexivity|]. split; [vm_compute; constructor|].
  split; [reflexivity|]. vm_compute. reflexivity.
Qed.

(** C2, amended, on [Sample.untranslated] and the key [basic]. *)
Lemma missing_translation_reported_witness :
  sample_validate Sample.untranslated
  = Normal [ "missing translation for single"%string;
             "missing translation for basic"%string;
             "missing abbreviated translation for basic"%string;
             "missing translation for shock"%string ]
  ∧ "missing translation for basic"%string
    ∈ [ "missing translation for single"%string;
        "missing translation for basic"%string;
        "missing abbreviated translation for basic"%string;
        "missing translation for shock"%string ]
  ∧ "missing abbreviated translation for basic"%string
    ∈ [ "missing translation for single"%string;
        "missing translation for basic"%string;
        "missing abbreviated translation for basic"%string;
        "missing translation for shock"%string ].
Proof.
  assert (sample_validate Sample.untranslated
          = Normal [ "missing translation for single"%string;
                     "missing translation for basic"%string;
                     "missing abbreviated translation for basic"%string;
                     "missing translation for shock"%string ]) as Hrun
    by (vm_compute; reflexivity).
  split; [exact Hrun|].
  destruct (missing_translation_reported Sample.primitive_get Sample.join
              Sample.resolve Sample.dirname (existsSync_on Sample.disk)
              Sample.untranslated {[ "$abbr"%string := IDict ∅ ]} "basic" _
              eq_refl ltac:(vm_compute; do 1 constructor; constructor) Hrun)
    as [Htranslation Habbreviation].
  split.
  - apply Htranslation. vm_compute. reflexivity.
  - apply Habbreviation; [vm_compute; constructor | vm_compute; reflexivity].
Defined.

(** C5: with a Japanese locale and a difficulty key, and no [$abbr] in the
    English dictionary, [validateContents] throws a TypeError where it is
    to report the missing abbreviation. *)
Lemma no_abbr_throws :
  I18N.locales (i18n Sample.no_abbr) !! "ja"%string = Some Sample.japanese
  ∧ difficultyKeys Sample.no_abbr = ["basic"%string]
  ∧ I18N.en (i18n Sample.no_abbr) !! "$abbr"%string = None
  ∧ sample_validate Sample.no_abbr = Throw TypeError.
Proof.
  split; [reflexivity|]. split; [reflexivity|].
  split; vm_compute; reflexivity.
Qed.

(** [Sample.good] has its abbreviation dictionaries, and [validateContents]
    returns on it. *)
Lemma validateContents_returns_witness :
  abbr_present Sample.primitive_get Sample.good
  ∧ ∃ errors, sample_validate Sample.good = Normal errors.
Proof.
  assert (abbr_present Sample.primitive_get Sample.good) as Hpresent.
  { intros ja Hja k Hk. simpl in Hja.
    apply lookup_singleton_Some in Hja as [_ <-].
    vm_compute in Hk. each_member Hk.
    split; [|intros _]; eexists; vm_compute; reflexivity. }
  split; [exact Hpresent|].
  exact (validateContents_returns Sample.primitive_get Sample.join Sample.resolve
           Sample.dirname (existsSync_on Sample.disk) Sample.good Hpresent).
Defined.

(** C3 on [Sample.empty], which the stand-in validator refuses and on which
    [validateContents] would throw. *)
Lemma invalid_document_schema_errors_only_witness :
  valid (Sample.validateJSONSchema Sample.empty) = false
  ∧ sample_validate Sample.empty = Throw TypeError
  ∧ validateFile Sample.primitive_get Sample.join Sample.resolve Sample.dirname
      GameData Sample.validateJSONSchema (fun songData => songData)
      "empty.json" Sample.empty
      {| hasError := false; console := []; files := Sample.disk |}
    = (Done tt,
       {| hasError := true;
          console := [ Error "instance.songs does not meet minimum length of 1";
                       Log "empty.json has issues!" ];
          files := Sample.disk |}).
Proof.
  split; [reflexivity|]. split; [vm_compute; reflexivity|].
  rewrite (invalid_document_schema_errors_only Sample.primitive_get Sample.join
             Sample.resolve Sample.dirname GameData Sample.validateJSONSchema
             (fun songData => songData) "empty.json" Sample.empty _ eq_refl).
  reflexivity.
Defined.

(** C7 on [Sample.good]: the first run writes the generated file, the second
    finds it and ends the same. *)
Lemma run_idempotent_witness :
  run Sample.primitive_get Sample.join Sample.resolve Sample.dirname
      GameData Sample.validateJSONSchema (fun songData => songData) Sample.compile
      Sample.writable
      [("good.json"%string, Sample.good)] Sample.disk
  = (Done tt, Sample.printed, Sample.disk_after)
  ∧ run Sample.primitive_get Sample.join Sample.resolve Sample.dirname
      GameData Sample.validateJSONSchema (fun songData => songData) Sample.compile
      Sample.writable
      [("good.json"%string, Sample.good)] Sample.disk_after
    = (Done tt, Sample.printed, Sample.disk_after).
Proof.
  assert (run Sample.primitive_get Sample.join Sample.resolve Sample.dirname
            GameData Sample.validateJSONSchema (fun songData => songData)
            Sample.compile Sample.writable [("good.json"%string, Sample.good)]
            Sample.disk
          = (Done tt, Sample.printed, Sample.disk_after)) as Hrun
    by (vm_compute; reflexivity).
  split; [exact Hrun|].
  exact (run_idempotent _ _ _ _ _ _ _ _ _ _ _ _ _ _ Hrun).
Defined.

(** ** Reading a dictionary *)

(** A key that names a property of [Object.prototype] reads as a built-in,
    which is truthy, in a dictionary that does not hold it; an empty string
    under a key reads as falsy. *)
Example inherited_key_reads_truthy :
  translated ∅ "toString" = true
  ∧ has_translation ∅ "toString" = false
  ∧ translated {[ "single"%string := IStr "" ]} "single" = false.
Proof. repeat split; vm_compute; reflexivity. Qed.

(** C10 as stated fails: the English dictionary of [Sample.no_abbr] has no
    [$abbr], and [getDiffAbbr] throws on it instead of returning. *)
Lemma getDiffAbbr_no_abbr_throws :
  I18N.en (i18n Sample.no_abbr) !! "$abbr"%string = None
  ∧ getDiffAbbr Sample.primitive_get Sample.no_abbr "basic" = Throw TypeError
  ∧ ¬ ∃ v, getDiffAbbr Sample.primitive_get Sample.no_abbr "basic" = Normal v.
Proof.
  split; [reflexivity|]. split; [vm_compute; reflexivity|].
  intros [v Hv]. vm_compute in Hv. discriminate Hv.
Qed.

(** C10, amended, on [Sample.korean], which has the English dictionary of
    [Sample.good] and another locale: the abbreviation of "basic" is the
    "B" of the English dictionary. *)
Lemma getDiffAbbr_english_witness :
  I18N.en (i18n Sample.good) !! "$abbr"%string
  = Some (IDict {[ "basic"%string := IStr "B" ]})
  ∧ I18N.en (i18n Sample.korean) = I18N.en (i18n Sample.good)
  ∧ I18N.locales (i18n Sample.korean) ≠ I18N.locales (i18n Sample.good)
  ∧ getDiffAbbr Sample.primitive_get Sample.korean "basic" = Normal (VString "B").
Proof.
  assert (I18N.en (i18n Sample.good) !! "$abbr"%string
          = Some (IDict {[ "basic"%string := IStr "B" ]})) as Habbr
    by (vm_compute; reflexivity).
  split; [exact Habbr|]. split; [reflexivity|]. split.
  - intros Hsame.
    assert (I18N.locales (i18n Sample.korean) !! "ja"%string
            = I18N.locales (i18n Sample.good) !! "ja"%string) as Hja
      by (by rewrite Hsame).
    vm_compute in Hja. discriminate Hja.
  - exact (proj2 (getDiffAbbr_english Sample.primitive_get Sample.good
                    Sample.korean "basic" _ Habbr eq_refl) "B"%string eq_refl).
Defined.

(** The abbreviation of a difficulty class on the sample catalog. *)
Example getDiffAbbr_sample :
  getDiffAbbr Sample.primitive_get Sample.good "basic" = Normal (VString "B")
  ∧ getDiffAbbr Sample.primitive_get Sample.good "expert" = Normal VUndefined.
Proof. repeat split; vm_compute; reflexivity. Qed.

(** ** The further properties on the sample documents *)

Abbreviation sample_run :=
  (run Sample.primitive_get Sample.join Sample.resolve Sample.dirname GameData
     Sample.validateJSONSchema (fun songData => songData) Sample.compile
     Sample.writable).

Abbreviation sample_completes :=
  (completes Sample.primitive_get Sample.join Sample.resolve Sample.dirname GameData
     Sample.validateJSONSchema (fun songData => songData)).

Abbreviation sample_passes :=
  (passes Sample.primitive_get Sample.join Sample.resolve Sample.dirname GameData
     Sample.validateJSONSchema (fun songData => songData)).

Abbreviation sample_report :=
  (report Sample.primitive_get Sample.join Sample.resolve Sample.dirname GameData
     Sample.validateJSONSchema (fun songData => songData)).

Lemma sample_messy_run : sample_validate Sample.messy = Normal Sample.messy_errors.
Proof. vm_compute. reflexivity. Qed.

Lemma sample_good_run : sample_validate Sample.good = Normal [].
Proof. vm_compute. reflexivity. Qed.

(** X2 on [Sample.korean], which has no Japanese locale. *)
Lemma no_japanese_no_translation_check_witness :
  I18N.locales (i18n Sample.korean) !! "ja"%string = None
  ∧ sample_validate
      (with_i18n {| I18N.en := ∅; I18N.locales := ∅ |} Sample.korean)
    = sample_validate Sample.korean
  ∧ ∃ errors, sample_validate Sample.korean = Normal errors.
Proof.
  split; [reflexivity|].
  exact (no_japanese_no_translation_check Sample.primitive_get Sample.join
           Sample.resolve Sample.dirname (existsSync_on Sample.disk) Sample.korean
           {| I18N.en := ∅; I18N.locales := ∅ |} eq_refl eq_refl).
Defined.

(** X3 on [Sample.messy], whose maximum level is 0. *)
Lemma level_max_reported_iff_witness :
  sample_validate Sample.messy = Normal Sample.messy_errors
  ∧ ("max level is below 1"%string ∈ Sample.messy_errors
     ↔ Meta.lvlMax (meta Sample.messy) < 1).
Proof.
  split; [exact sample_messy_run|].
  exact (level_max_reported_iff Sample.primitive_get Sample.join Sample.resolve
           Sample.dirname (existsSync_on Sample.disk) Sample.messy
           Sample.messy_errors sample_messy_run).
Defined.

(** X4 on [Sample.messy], whose bounds are 5 and 3. *)
Lemma level_bounds_reported_iff_witness :
  sample_validate Sample.messy = Normal Sample.messy_errors
  ∧ ("default level bounds are reversed"%string ∈ Sample.messy_errors ↔ 3 < 5)
  ∧ ("default level bounds are beyond max level"%string ∈ Sample.messy_errors
     ↔ 0 < 5 ∨ 0 < 3).
Proof.
  split; [exact sample_messy_run|].
  exact (level_bounds_reported_iff Sample.primitive_get Sample.join Sample.resolve
           Sample.dirname (existsSync_on Sample.disk) Sample.messy
           Sample.messy_errors sample_messy_run).
Defined.

(** X5 on [Sample.messy], whose default style is [double]. *)
Lemma default_membership_reported_iff_witness :
  sample_validate Sample.messy = Normal Sample.messy_errors
  ∧ ("default style is not listed in meta"%string ∈ Sample.messy_errors
     ↔ ∃ style, Defaults.style (defaults Sample.messy) = Some style
                ∧ style ≠ ""%string
                ∧ style ∉ Meta.styles (meta Sample.messy))
  ∧ ("some default difficulties are missing from meta"%string ∈ Sample.messy_errors
     ↔ ∃ x, x ∈ Defaults.difficulties (defaults Sample.messy)
            ∧ x ∉ difficultyKeys Sample.messy).
Proof.
  split; [exact sample_messy_run|].
  exact (default_membership_reported_iff Sample.primitive_get Sample.join
           Sample.resolve Sample.dirname (existsSync_on Sample.disk) Sample.messy
           Sample.messy_errors sample_messy_run).
Defined.

(** X6 on [Sample.messy], whose jacket is not on the disk. *)
Lemma missing_jacket_reported_witness :
  Sample.messy_song ∈ songs Sample.messy
  ∧ existsSync_on Sample.disk
      (Sample.join [jacketsDir Sample.join Sample.resolve Sample.dirname;
                    "missing.png"%string]) = false
  ∧ "missing jacket image missing.png"%string ∈ Sample.messy_errors.
Proof.
  assert (Sample.messy_song ∈ songs Sample.messy) as Hsong by (simpl; constructor).
  split; [exact Hsong|]. split; [vm_compute; reflexivity|].
  exact (missing_jacket_reported Sample.primitive_get Sample.join Sample.resolve
           Sample.dirname (existsSync_on Sample.disk) Sample.messy
           Sample.messy_song "missing.png" Sample.messy_errors
           Hsong eq_refl ltac:(discriminate) ltac:(vm_compute; reflexivity)
           sample_messy_run).
Defined.

(** X7 on [Sample.messy], whose chart has the level 15 above the maximum 0. *)
Lemma level_above_max_reported_witness :
  truthy_bool (Meta.usesDrawGroups (meta Sample.messy)) = false
  ∧ Chart.lvl Sample.messy_chart = Some 15
  ∧ "Song B has chart above level max"%string ∈ Sample.messy_errors.
Proof.
  split; [reflexivity|]. split; [reflexivity|].
  refine (proj1 (level_above_max_reported Sample.primitive_get Sample.join
                   Sample.resolve Sample.dirname (existsSync_on Sample.disk)
                   Sample.messy Sample.messy_song Sample.messy_chart
                   Sample.messy_errors _ _ sample_messy_run) eq_refl _).
  - simpl. constructor.
  - simpl. constructor.
  - exists 15. split; [reflexivity|]. simpl. lia.
Defined.

(** X8 on [Sample.messy], whose chart has the style [double] and the
    diffClass [expert]. *)
Lemma unrecognized_chart_reported_witness :
  (Chart.style Sample.messy_chart ∉ Meta.styles (meta Sample.messy))
  ∧ (("unrecognized style " +:+ dquote +:+ "double" +:+ dquote
      +:+ " used by Song B") ∈ Sample.messy_errors).
Proof.
  assert (Chart.style Sample.messy_chart ∉ Meta.styles (meta Sample.messy)) as Hnot.
  { simpl. rewrite not_elem_of_cons. split; [discriminate|apply not_elem_of_nil]. }
  split; [exact Hnot|].
  refine (proj1 (unrecognized_chart_reported Sample.primitive_get Sample.join
                   Sample.resolve Sample.dirname (existsSync_on Sample.disk)
                   Sample.messy Sample.messy_song Sample.messy_chart
                   Sample.messy_errors _ _ sample_messy_run) Hnot).
  - simpl. constructor.
  - simpl. constructor.
Defined.

(** X9 on [Sample.good]. *)
Lemma no_errors_songs_sound_witness :
  sample_validate Sample.good = Normal []
  ∧ Chart.style (Sample.chart (Some 12)) ∈ Meta.styles (meta Sample.good)
  ∧ ∃ g, Chart.drawGroup (Sample.chart (Some 12)) = Some g ∧ g ≠ 0 ∧ g ≤ 19.
Proof.
  split; [exact sample_good_run|].
  destruct (no_errors_songs_sound Sample.primitive_get Sample.join Sample.resolve
              Sample.dirname (existsSync_on Sample.disk) Sample.good
              (Sample.song (Some 12)) sample_good_run
              ltac:(simpl; constructor)) as [_ Hcharts].
  destruct (Hcharts (Sample.chart (Some 12)) ltac:(simpl; constructor))
    as (Hstyle & _ & Hgroup).
  split; [exact Hstyle | exact Hgroup].
Defined.

(** X10 on [Sample.good] and the key [basic]. *)
Lemma no_errors_translations_sound_witness :
  sample_validate Sample.good = Normal []
  ∧ ∃ v, getDiffAbbr Sample.primitive_get Sample.good "basic" = Normal v
         ∧ truthy v = true.
Proof.
  split; [exact sample_good_run|].
  refine (proj2 (proj2 (proj2
    (no_errors_translations_sound Sample.primitive_get Sample.join Sample.resolve
       Sample.dirname (existsSync_on Sample.disk) Sample.good Sample.japanese
       "basic" sample_good_run eq_refl _)) _)).
  - vm_compute. do 1 constructor. constructor.
  - vm_compute. constructor.
Defined.

(** X11 on [Sample.zero_group], every level changed to 99. *)
Lemma lvl_unread_with_drawGroups_witness :
  truthy_bool (Meta.usesDrawGroups (meta Sample.zero_group)) = true
  ∧ sample_validate (map_charts (set_lvl (fun _ => Some 99)) Sample.zero_group)
    = sample_validate Sample.zero_group.
Proof.
  split; [reflexivity|].
  exact (lvl_unread_with_drawGroups Sample.primitive_get Sample.join Sample.resolve
           Sample.dirname (existsSync_on Sample.disk) Sample.zero_group
           (fun _ => Some 99) eq_refl).
Defined.

(** X12 on [Sample.messy], every draw group changed to 99. *)
Lemma drawGroup_unread_without_drawGroups_witness :
  truthy_bool (Meta.usesDrawGroups (meta Sample.messy)) = false
  ∧ sample_validate (map_charts (set_drawGroup (fun _ => Some 99)) Sample.messy)
    = sample_validate Sample.messy.
Proof.
  split; [reflexivity|].
  exact (drawGroup_unread_without_drawGroups Sample.primitive_get Sample.join
           Sample.resolve Sample.dirname (existsSync_on Sample.disk) Sample.messy
           (fun _ => Some 99) eq_refl).
Defined.

(** X13 on [Sample.good], from the empty disk to the one with the jacket. *)
Lemma more_files_fewer_errors_witness :
  validateContents Sample.primitive_get Sample.join Sample.resolve Sample.dirname
    (existsSync_on ∅) Sample.good
  = Normal ["missing jacket image a.png"%string]
  ∧ ∃ errors2,
      sample_validate Sample.good = Normal errors2
      ∧ errors2 `sublist_of` ["missing jacket image a.png"%string].
Proof.
  assert (validateContents Sample.primitive_get Sample.join Sample.resolve
            Sample.dirname (existsSync_on ∅) Sample.good
          = Normal ["missing jacket image a.png"%string]) as Hrun
    by (vm_compute; reflexivity).
  split; [exact Hrun|].
  refine (more_files_fewer_errors Sample.primitive_get Sample.join Sample.resolve
            Sample.dirname (existsSync_on ∅) (existsSync_on Sample.disk)
            Sample.good _ _ Hrun).
  intros path Hpath. unfold existsSync_on in Hpath.
  rewrite lookup_empty in Hpath. apply bool_decide_eq_true in Hpath.
  by destruct Hpath.
Defined.

(** X14 on [Sample.good] followed by [Sample.empty], which the stand-in
    validator refuses. *)
Lemma run_reports_failures_witness :
  Forall (sample_completes Sample.disk)
    [("good.json"%string, Sample.good); ("empty.json"%string, Sample.empty)]
  ∧ sample_run
      [("good.json"%string, Sample.good); ("empty.json"%string, Sample.empty)]
      Sample.disk
    = (Exited 1,
       [ Log "good.json looks good!";
         Error "instance.songs does not meet minimum length of 1";
         Log "empty.json has issues!" ],
       Sample.disk).
Proof.
  assert (Forall (sample_completes Sample.disk)
            [("good.json"%string, Sample.good); ("empty.json"%string, Sample.empty)])
    as Hall.
  { repeat constructor.
    - intros _. eexists. vm_compute. reflexivity.
    - intros Hvalid. vm_compute in Hvalid. discriminate Hvalid. }
  split; [exact Hall|].
  rewrite (run_reports_failures Sample.primitive_get Sample.join Sample.resolve
             Sample.dirname GameData Sample.validateJSONSchema
             (fun songData => songData) Sample.compile Sample.writable _
             Sample.disk Hall
             ltac:(vm_compute; reflexivity)).
  vm_compute. reflexivity.
Defined.

(** X15 on [Sample.good] alone: where the path of the schema can be
    written, and where it cannot. *)
Lemma run_generates_witness :
  forallb (sample_passes Sample.disk) [("good.json"%string, Sample.good)] = true
  ∧ sample_run [("good.json"%string, Sample.good)] Sample.disk
    = (Done tt, Sample.printed, Sample.disk_after)
  ∧ run Sample.primitive_get Sample.join Sample.resolve Sample.dirname GameData
      Sample.validateJSONSchema (fun songData => songData) Sample.compile
      Sample.read_only [("good.json"%string, Sample.good)] Sample.disk
    = (Uncaught SystemError,
       [Log "good.json looks good!"; Log "Building schema file"],
       Sample.disk).
Proof.
  assert (forallb (sample_passes Sample.disk) [("good.json"%string, Sample.good)]
          = true) as Hpass by (vm_compute; reflexivity).
  split; [exact Hpass|]. split.
  - rewrite (run_generates Sample.primitive_get Sample.join Sample.resolve
               Sample.dirname GameData Sample.validateJSONSchema
               (fun songData => songData) Sample.compile Sample.writable _
               Sample.disk Hpass).
    vm_compute. reflexivity.
  - rewrite (run_generates Sample.primitive_get Sample.join Sample.resolve
               Sample.dirname GameData Sample.validateJSONSchema
               (fun songData => songData) Sample.compile Sample.read_only _
               Sample.disk Hpass).
    vm_compute. reflexivity.
Defined.

(** X16 on [Sample.good], then [Sample.no_abbr], which throws, then
    [Sample.empty], which is not reached. *)
Lemma run_stops_at_exception_witness :
  sample_validate Sample.no_abbr = Throw TypeError
  ∧ sample_run
      [ ("good.json"%string, Sample.good);
        ("no_abbr.json"%string, Sample.no_abbr);
        ("empty.json"%string, Sample.empty) ]
      Sample.disk
    = (Uncaught TypeError, [Log "good.json looks good!"], Sample.disk).
Proof.
  assert (sample_validate Sample.no_abbr = Throw TypeError) as Hthrow
    by (vm_compute; reflexivity).
  split; [exact Hthrow|].
  etrans.
  - apply (run_stops_at_exception Sample.primitive_get Sample.join Sample.resolve
             Sample.dirname GameData Sample.validateJSONSchema
             (fun songData => songData) Sample.compile Sample.writable
             [("good.json"%string, Sample.good)] "no_abbr.json" Sample.no_abbr
             [("empty.json"%string, Sample.empty)] Sample.disk TypeError).
    + repeat constructor. intros _. eexists. vm_compute. reflexivity.
    + reflexivity.
    + exact Hthrow.
  - vm_compute. reflexivity.
Defined.

(** X17 on the run of [Sample.good], which writes the generated file and
    leaves the jacket. *)
Lemma run_writes_schema_only_witness :
  sample_run [("good.json"%string, Sample.good)] Sample.disk
  = (Done tt, Sample.printed, Sample.disk_after)
  ∧ Sample.disk_after !! "/repo/scripts/../src/assets/jackets/a.png"%string
    = Sample.disk !! "/repo/scripts/../src/assets/jackets/a.png"%string.
Proof.
  assert (sample_run [("good.json"%string, Sample.good)] Sample.disk
          = (Done tt, Sample.printed, Sample.disk_after)) as Hrun
    by (vm_compute; reflexivity).
  split; [exact Hrun|].
  apply (run_writes_schema_only Sample.primitive_get Sample.join Sample.resolve
           Sample.dirname GameData Sample.validateJSONSchema
           (fun songData => songData) Sample.compile Sample.writable
           _ _ _ _ _ Hrun).
  vm_compute. discriminate.
Defined.

(** X19 on [Sample.good]: the disk, and the test of the jacket's path. *)
Lemma only_jacket_paths_read_witness :
  validateContents Sample.primitive_get Sample.join Sample.resolve Sample.dirname
    (existsSync_on Sample.disk) Sample.good
  = validateContents Sample.primitive_get Sample.join Sample.resolve Sample.dirname
      Sample.jacket_only Sample.good.
Proof.
  apply (only_jacket_paths_read Sample.primitive_get Sample.join Sample.resolve
           Sample.dirname (existsSync_on Sample.disk) Sample.jacket_only Sample.good).
  intros song jacket Hsong Hjacket. simpl in Hsong. each_member Hsong.
  simpl in Hjacket. injection Hjacket as <-. vm_compute. reflexivity.
Defined.

(** X20 on [Sample.good] with a Korean locale added. *)
Lemma other_locales_unread_witness :
  I18N.locales Sample.three_locales !! "ko"%string = Some ∅
  ∧ I18N.locales (i18n Sample.good) !! "ko"%string = None
  ∧ sample_validate (with_i18n Sample.three_locales Sample.good)
    = sample_validate Sample.good.
Proof.
  split; [vm_compute; reflexivity|]. split; [vm_compute; reflexivity|].
  exact (other_locales_unread Sample.primitive_get Sample.join Sample.resolve
           Sample.dirname (existsSync_on Sample.disk) Sample.good
           Sample.three_locales eq_refl ltac:(vm_compute; reflexivity)).
Defined.

(** X21 on [Sample.quirky], whose flag [constructor] no dictionary holds. *)
Lemma inherited_key_never_untranslated_witness :
  "constructor"%string ∈ allKeys Sample.quirky
  ∧ I18N.en (i18n Sample.quirky) !! "constructor"%string = None
  ∧ Sample.japanese !! "constructor"%string = None
  ∧ sample_validate Sample.quirky = Normal []
  ∧ "missing translation for constructor"%string ∉ ([] : list string).
Proof.
  assert (sample_validate Sample.quirky = Normal []) as Hrun
    by (vm_compute; reflexivity).
  split; [vm_compute; do 2 constructor; constructor|].
  split; [vm_compute; reflexivity|]. split; [vm_compute; reflexivity|].
  split; [exact Hrun|].
  exact (inherited_key_never_untranslated Sample.primitive_get Sample.join
           Sample.resolve Sample.dirname (existsSync_on Sample.disk) Sample.quirky
           Sample.japanese "constructor" []
           ltac:(unfold Object_prototype; constructor) eq_refl
           ltac:(vm_compute; reflexivity) ltac:(vm_compute; reflexivity) Hrun).
Defined.
